(** * Post-processing of darknet detections (lib/darknet_detection.py)

    A shallow embedding of [ObjectDetection]: the decode loop of
    [postprocess], the assembly loop that builds the detection records,
    [return_objects], [load_classes] and [__init__].

    Two callees are not among the sources: [cv.dnn.NMSBoxes], which is
    OpenCV's, and [calculate_relative_coords] of lib/helpers.py.  Both are
    modelled from the specification (sections 4.3 and 4.4); their
    definitions say so.  The network itself ([readNet], the forward pass)
    and the file system are parameters.

    Numbers.  The network's scores and box fractions are floats in the
    program; they are embedded as exact rationals ([Q]), so rounding error of
    the floating-point operations is not part of this model.  Pixel
    coordinates are Python ints ([Z]); [int(...)] truncates toward zero. *)

From Stdlib Require Import String Ascii.
From Stdlib Require Import List ZArith QArith Qround Bool Lia Lqa.
From Stdlib Require Import Permutation Sorted.
From Equations Require Import Equations.
Import ListNotations.

Local Open Scope Q_scope.

(** ** Python values and exceptions *)

Module Py.

(** The exceptions the embedded code can raise. *)
Inductive exn : Type :=
| ValueError          (* np.argmax of an empty sequence *)
| IndexError          (* sequence index out of range *)
| UnboundLocalError   (* a local variable read before assignment *)
| OSError             (* open() of the class file *)
| CvError.            (* cv.dnn.readNet *)

Inductive result (A : Type) : Type :=
| Ok (a : A)
| Raise (e : exn).
Arguments Ok {A} a.
Arguments Raise {A} e.

Definition bind {A B : Type} (c : result A) (k : A -> result B) : result B :=
  match c with
  | Ok a => k a
  | Raise e => Raise e
  end.

(** [int(x)] on a float: truncation toward zero. *)
Definition int (x : Q) : Z := Z.quot (Qnum x) (Zpos (Qden x)).

(** [x > y] on floats. *)
Definition gt (x y : Q) : bool := negb (Qle_bool x y).

(** [l[i]] for a non-negative index. *)
Definition index {A : Type} (l : list A) (i : nat) : result A :=
  match nth_error l i with
  | Some x => Ok x
  | None => Raise IndexError
  end.

(** Rounding to the nearest integer, ties to the even one. *)
Definition round_half_even (x : Q) : Z :=
  let f := Qfloor x in
  match Qcompare (x - inject_Z f) (1 # 2) with
  | Lt => f
  | Gt => (f + 1)%Z
  | Eq => if Z.even f then f else (f + 1)%Z
  end.

(** [round(x, 3)]: the nearest multiple of 1/1000, ties to the even one (on
    floats Python rounds the exact value of the float the same way). *)
Definition round3 (x : Q) : Q :=
  inject_Z (round_half_even (x * 1000)) / 1000.

(** [np.argmax]: the first index of a maximal element; the scan keeps the
    best index and value seen so far. *)
Fixpoint argmax_from (best_i : nat) (best : Q) (i : nat) (l : list Q) : nat :=
  match l with
  | [] => best_i
  | x :: l' =>
      if gt x best then argmax_from i x (S i) l'
      else argmax_from best_i best (S i) l'
  end.

Definition argmax (scores : list Q) : result nat :=
  match scores with
  | [] => Raise ValueError
  | x :: l => Ok (argmax_from 0%nat x 1%nat l)
  end.

End Py.

Import Py.

Notation "x <- c ;; k" := (Py.bind c (fun x => k))
  (at level 61, c at next level, right associativity).

(** ** Data *)

(** A box as the decode loop appends it: [[left, top, width, height]]. *)
Record Box : Type := mkBox
  { left : Z; top : Z; width : Z; height : Z }.

(** The three lists [postprocess] fills in lockstep. *)
Record Lists : Type := mkLists
  { classIds : list nat; confidences : list Q; boxes : list Box }.

Definition no_lists : Lists := mkLists [] [] [].

(** A candidate is one position of the three lists. *)
Record Candidate : Type := mkCandidate
  { class_id : nat; confidence : Q; box : Box }.

Definition candidates (st : Lists) : list Candidate :=
  map (fun t => mkCandidate (fst (fst t)) (snd (fst t)) (snd t))
      (combine (combine (classIds st) (confidences st)) (boxes st)).

(** A frame is an array of pixel rows, each pixel a list of channel values. *)
Definition Frame : Type := list (list (list Z)).

(** The 4D blob of [cv.dnn.blobFromImage], kept as the arguments it was built
    from: the resizing and scaling themselves are OpenCV's. *)
Record Blob : Type := mkBlob
  { image : Frame;
    scalefactor : Q;
    size : Z * Z;
    mean : list Z;
    swapRB : bool;
    crop : bool }.


Inductive Backend : Type := DNN_BACKEND_OPENCV | DNN_BACKEND_CUDA.
Inductive Target : Type := DNN_TARGET_OPENCL | DNN_TARGET_CUDA.

(** A loaded network: the value of [getLayerNames()], the value of
    [getUnconnectedOutLayers()], its forward pass to the layers of given
    names (which may raise), the blob last given to [setInput], and the
    backend and target last set. *)
Record Net : Type := mkNet
  { layerNames : list string;
    unconnectedOutLayers : list (list Z);
    forward_pass : list string -> Blob -> result (list (list (list Q)));
    net_input : option Blob;
    preferableBackend : option Backend;
    preferableTarget : option Target }.


Definition setPreferableBackend (n : Net) (b : Backend) : Net :=
  mkNet (layerNames n) (unconnectedOutLayers n) (forward_pass n)
        (net_input n) (Some b) (preferableTarget n).

Definition setPreferableTarget (n : Net) (t : Target) : Net :=
  mkNet (layerNames n) (unconnectedOutLayers n) (forward_pass n)
        (net_input n) (preferableBackend n) (Some t).


(** The fields of [self].  [classes] is [None] when no class file was
    given. *)
Record ObjectDetection : Type := mkObjectDetection
  { input : option string;
    confThreshold : Q;
    nmsThreshold : Q;
    model_res : Z * Z;
    classes : option (list string);
    net : Net }.

(** ** Output layer names (lines 46-48) *)

(** [l[i]] for any integer index: a negative index counts from the end. *)
Definition getitem {A : Type} (l : list A) (i : Z) : result A :=
  if (0 <=? i)%Z then index l (Z.to_nat i)
  else if (- Z.of_nat (length l) <=? i)%Z
       then index l (Z.to_nat (Z.of_nat (length l) + i))
       else Raise IndexError.

(** [getOutputsNames], on the values of [net.getLayerNames()] and
    [net.getUnconnectedOutLayers()]; the latter holds one-element arrays of
    layer ids, counted from 1. *)
Fixpoint getOutputsNames (layersNames : list string)
    (unconnectedOutLayers : list (list Z)) : result (list string) :=
  match unconnectedOutLayers with
  | [] => Ok []
  | i :: rest =>
      i0 <- getitem i 0 ;;
      name <- getitem layersNames (i0 - 1) ;;
      names <- getOutputsNames layersNames rest ;;
      Ok (name :: names)
  end.

(** ** The decode loop (lines 54-68) *)

Section Decode.

Variable self : ObjectDetection.

(** The body of the inner loop for one row [detection]. *)
Definition decode_detection (detection : list Q) (st : Lists) : result Lists :=
  let scores := skipn 5 detection in
  classId <- argmax scores ;;
  confidence <- index scores classId ;;
  if gt confidence (confThreshold self) then
    d0 <- index detection 0 ;;
    d1 <- index detection 1 ;;
    d2 <- index detection 2 ;;
    d3 <- index detection 3 ;;
    let center_x := int (d0 * inject_Z (fst (model_res self))) in
    let center_y := int (d1 * inject_Z (snd (model_res self))) in
    let width := int (d2 * inject_Z (fst (model_res self))) in
    let height := int (d3 * inject_Z (snd (model_res self))) in
    let left := int (inject_Z center_x - inject_Z width / 2) in
    let top := int (inject_Z center_y - inject_Z height / 2) in
    Ok (mkLists (classIds st ++ [classId])
                (confidences st ++ [confidence])
                (boxes st ++ [mkBox left top width height]))
  else Ok st.

(** [for detection in out]. *)
Fixpoint decode_out (out : list (list Q)) (st : Lists) : result Lists :=
  match out with
  | [] => Ok st
  | detection :: rest =>
      st' <- decode_detection detection st ;; decode_out rest st'
  end.

(** [for out in outs]. *)
Fixpoint decode_outs (outs : list (list (list Q))) (st : Lists)
  : result Lists :=
  match outs with
  | [] => Ok st
  | out :: rest => st' <- decode_out out st ;; decode_outs rest st'
  end.

Definition decode (outs : list (list (list Q))) : result Lists :=
  decode_outs outs no_lists.

End Decode.

(** ** Suppression *)

(** Modelled from the spec: the area of a box and of the intersection of two
    axis-aligned boxes, for the IoU of section 4.3. *)
Definition area (b : Box) : Z := (width b * height b)%Z.

Definition intersection_area (a b : Box) : Z :=
  let w := (Z.min (left a + width a) (left b + width b)
            - Z.max (left a) (left b))%Z in
  let h := (Z.min (top a + height a) (top b + height b)
            - Z.max (top a) (top b))%Z in
  (Z.max 0 w * Z.max 0 h)%Z.

(** Modelled from the spec: the overlap measure of the suppressor, which the
    program leaves to [cv.dnn.NMSBoxes].  Section 4.3: intersection area over
    (areaA + areaB - intersection area), zero-area boxes yielding 0. *)
Definition IoU (a b : Box) : Q :=
  if ((area a =? 0) || (area b =? 0))%Z then 0
  else inject_Z (intersection_area a b)
       / inject_Z (area a + area b - intersection_area a b).

Section Suppress.

Variables (boxes : list Box) (confidences : list Q).
Variable nms_threshold : Q.

Definition box_at (i : nat) : Box := nth i boxes (mkBox 0 0 0 0).
Definition conf_at (i : nat) : Q := nth i confidences 0.

(** Modelled from the spec: the sort by descending confidence of section
    4.3, by insertion into a sorted list of candidate positions; a position
    goes before the ones of equal confidence already there, so that
    [sort_desc] keeps candidates of equal confidence in input order. *)
Fixpoint insert_desc (i : nat) (l : list nat) : list nat :=
  match l with
  | [] => [i]
  | j :: l' =>
      if Qle_bool (conf_at j) (conf_at i) then i :: j :: l'
      else j :: insert_desc i l'
  end.

Definition sort_desc (l : list nat) : list nat :=
  fold_right insert_desc [] l.

(** [r] survives the keeping of [k]: their IoU is below the threshold. *)
Definition survives (k r : nat) : bool :=
  negb (Qle_bool nms_threshold (IoU (box_at r) (box_at k))).

(** Modelled from the spec: the greedy pass of section 4.3.  Keep the first
    remaining candidate, remove the remaining ones whose IoU with it reaches
    the threshold, go on with what remains. *)
Equations? greedy (remaining : list nat) : list nat
  by wf (length remaining) lt :=
  greedy [] := [];
  greedy (k :: rest) := k :: greedy (filter (survives k) rest).
Proof.
  pose proof (filter_length_le (survives k) rest). lia.
Qed.

End Suppress.

(** Modelled from the spec: [cv.dnn.NMSBoxes] is OpenCV's and its code is
    not part of the repository.  Section 4.3, suppress(candidates,
    confidence_threshold, iou_threshold): sort the candidates by descending
    confidence, then repeatedly keep the highest-confidence remaining one
    and remove the remaining ones whose IoU with it is at least the
    threshold.  The candidates are the positions of the two lists, as the
    program passes them; the result is the sequence of kept positions.
    The algorithm of section 4.3 makes no use of the confidence
    threshold. *)
Definition NMSBoxes (boxes : list Box) (confidences : list Q)
    (score_threshold nms_threshold : Q) : list nat :=
  greedy boxes nms_threshold
    (sort_desc confidences (seq 0 (length boxes))).

(** ** Normalisation *)

(** Modelled from the spec: the clamping to [0,1] of section 4.4. *)
Definition clamp01 (x : Q) : Q :=
  if Qle_bool x 0 then 0 else if Qle_bool 1 x then 1 else x.

(** Modelled from the spec: [calculate_relative_coords] of lib/helpers.py,
    which is not among the sources.  Section 4.4: each corner coordinate is
    divided by the reference width or height, and the result is clamped to
    [0,1].  The program passes the box by its corners
    [(left, top, left + width, top + height)].  At a reference width or
    height of zero the quotient of section 4.4 has no value ([Q] gives 0
    there): the properties that depend on what the normaliser returns are
    stated for a non-zero resolution. *)
Definition calculate_relative_coords (bounding_box : Z * Z * Z * Z)
    (resolution : Z * Z) : Q * Q * Q * Q :=
  let '(x1, y1, x2, y2) := bounding_box in
  (clamp01 (inject_Z x1 / inject_Z (fst resolution)),
   clamp01 (inject_Z y1 / inject_Z (snd resolution)),
   clamp01 (inject_Z x2 / inject_Z (fst resolution)),
   clamp01 (inject_Z y2 / inject_Z (snd resolution))).

(** ** The assembly loop (lines 74-102) *)

Module Det.
(** The dict appended to [detections]. *)
Record t : Type := mk
  { label : string;
    confidence : Q;
    height : Q;
    width : Q;
    relative_x1 : Q;
    relative_y1 : Q;
    relative_x2 : Q;
    relative_y2 : Q }.
End Det.

(** Truth value of [self.classes]: [None] and the empty list are false. *)
Definition truthy {A : Type} (l : option (list A)) : bool :=
  match l with
  | Some (_ :: _) => true
  | _ => false
  end.

(** Truth value of a string: the empty string is false. *)
Definition nonempty (s : string) : bool :=
  match s with
  | EmptyString => false
  | String _ _ => true
  end.

Section Assemble.

Variable self : ObjectDetection.
Variable st : Lists.

(** One turn of [for i in indices].  The local variable [label] is carried
    from turn to turn: [None] while it has not been assigned. *)
Definition assemble_index (i : nat) (label : option string)
  : result (option string * Det.t) :=
  box <- index (boxes st) i ;;
  let left := left box in
  let top := top box in
  let width := width box in
  let height := height box in
  label <- (if truthy (classes self) then
              classId <- index (classIds st) i ;;
              name <- index (match classes self with
                             | Some names => names
                             | None => []
                             end) classId ;;
              Ok (Some name)
            else Ok label) ;;
  let relative_coords :=
    calculate_relative_coords
      (left, top, (left + width)%Z, (top + height)%Z) (model_res self) in
  let '(r0, r1, r2, r3) := relative_coords in
  shown <- match label with
           | None => Raise UnboundLocalError
           | Some name =>
               Ok (if nonempty name then name else "Unknown"%string)
           end ;;
  confidence <- index (confidences st) i ;;
  Ok (label,
      Det.mk shown (round3 confidence) (round3 (r3 - r1)) (round3 (r2 - r0))
             (round3 r0) (round3 r1) (round3 r2) (round3 r3)).

Fixpoint assemble (indices : list nat) (label : option string)
    (detections : list Det.t) : result (list Det.t) :=
  match indices with
  | [] => Ok detections
  | i :: rest =>
      r <- assemble_index i label ;;
      assemble rest (fst r) (detections ++ [snd r])
  end.

End Assemble.

(** [postprocess], for a given suppressor. *)
Definition postprocess_with
    (nms : list Box -> list Q -> Q -> Q -> list nat)
    (self : ObjectDetection) (outs : list (list (list Q)))
  : result (list Det.t) :=
  st <- decode self outs ;;
  let indices :=
    nms (boxes st) (confidences st) (confThreshold self) (nmsThreshold self) in
  assemble self st indices None [].

Definition postprocess : ObjectDetection -> list (list (list Q))
                         -> result (list Det.t) :=
  postprocess_with NMSBoxes.

(** An entry of the index array of [cv.dnn.NMSBoxes], as [for i in indices]
    meets it: a one-element array when the index array has one column, the
    layout line 77 is written for, and a bare integer when the index array
    is flat.  [assemble] above takes the kept positions as the entries
    [i[0]] of an index array of one column. *)
Inductive Kept : Type :=
| KeptRow (row : list nat)
| KeptScalar (i : nat).

(** [i[0]] (line 77); a bare integer cannot be indexed. *)
Definition first_of (k : Kept) : result nat :=
  match k with
  | KeptRow row => index row 0
  | KeptScalar _ => Raise IndexError
  end.

(** [for i in indices], line 77 included. *)
Fixpoint assemble_kept (self : ObjectDetection) (st : Lists)
    (kept : list Kept) (label : option string) (detections : list Det.t)
  : result (list Det.t) :=
  match kept with
  | [] => Ok detections
  | k :: rest =>
      i <- first_of k ;;
      r <- assemble_index self st i label ;;
      assemble_kept self st rest (fst r) (detections ++ [snd r])
  end.

(** [postprocess], for a suppressor given with the layout of its index
    array. *)
Definition postprocess_kept
    (nms : list Box -> list Q -> Q -> Q -> list Kept)
    (self : ObjectDetection) (outs : list (list (list Q)))
  : result (list Det.t) :=
  st <- decode self outs ;;
  let indices :=
    nms (boxes st) (confidences st) (confThreshold self) (nmsThreshold self) in
  assemble_kept self st indices None [].

(** ** [return_objects] *)



(** ** Construction *)

Definition newline : ascii := "010"%char.

(** [s.rstrip("\n")]. *)
Fixpoint rstrip_newline (s : string) : string :=
  match s with
  | EmptyString => EmptyString
  | String c s' =>
      match rstrip_newline s' with
      | EmptyString =>
          if Ascii.eqb c newline then EmptyString else String c EmptyString
      | r => String c r
      end
  end.

(** [s.split("\n")]. *)
Fixpoint split_newline (s : string) : list string :=
  match s with
  | EmptyString => [EmptyString]
  | String c s' =>
      if Ascii.eqb c newline then EmptyString :: split_newline s'
      else match split_newline s' with
           | [] => [String c EmptyString]
           | first :: others => String c first :: others
           end
  end.

Section Construction.

(** The file system: the text of the file at a path, if it can be
    opened. *)
Variable read_text : string -> option string.

(** [cv.dnn.readNet model config framework]. *)
Variable readNet : string -> option string -> string -> option Net.

Definition load_classes (classes : option string)
  : result (option (list string)) :=
  match classes with
  | None => Ok None
  | Some EmptyString => Ok None
  | Some path =>
      match read_text path with
      | Some text => Ok (Some (split_newline (rstrip_newline text)))
      | None => Raise OSError
      end
  end.

Definition load_network (model : string) (config : option string)
  : result Net :=
  match readNet model config "darknet" with
  | Some n =>
      Ok (setPreferableTarget
            (setPreferableBackend n DNN_BACKEND_CUDA) DNN_TARGET_CUDA)
  | None => Raise CvError
  end.

(** [ObjectDetection.__init__].  The activation of OpenCL sets a flag of the
    OpenCV library that none of the values computed here depends on; it is
    left out. *)
Definition __init__ (input : option string) (model : string)
    (config classes : option string) (thr nms : Q) (model_res : Z * Z)
  : result ObjectDetection :=
  names <- load_classes classes ;;
  n <- load_network model config ;;
  Ok (mkObjectDetection input thr nms model_res names n).

End Construction.

(** * Vocabulary of the properties *)

(** [m] is a greatest element of [l]. *)
Definition is_max (m : Q) (l : list Q) : Prop :=
  In m l /\ forall s, In s l -> s <= m.

(** The value kept by the scan of [argmax_from]. *)
Fixpoint max_from (best : Q) (l : list Q) : Q :=
  match l with
  | [] => best
  | x :: l' => if gt x best then max_from x l' else max_from best l'
  end.

(** The three lists have one entry per candidate. *)
Definition aligned (st : Lists) : Prop :=
  length (classIds st) = length (confidences st) /\
  length (confidences st) = length (boxes st).

(** The pixel box of a row. *)
Definition box_of_row (res : Z * Z) (row : list Q) : Box :=
  let center_x := int (nth 0 row 0 * inject_Z (fst res)) in
  let center_y := int (nth 1 row 0 * inject_Z (snd res)) in
  let width := int (nth 2 row 0 * inject_Z (fst res)) in
  let height := int (nth 3 row 0 * inject_Z (snd res)) in
  mkBox (int (inject_Z center_x - inject_Z width / 2))
        (int (inject_Z center_y - inject_Z height / 2))
        width height.

(** The rows of [outs] with a class score above the threshold. *)
Definition contributing (self : ObjectDetection) (outs : list (list (list Q)))
  : list (list Q) :=
  filter (fun row => existsb (fun s => gt s (confThreshold self)) (skipn 5 row))
         (concat outs).

(** A candidate decoded from a row: its confidence is the row's greatest
    class score and its box is the row's pixel box. *)
Definition decoded_from (self : ObjectDetection) (c : Candidate)
    (row : list Q) : Prop :=
  is_max (confidence c) (skipn 5 row) /\
  nth_error (skipn 5 row) (class_id c) = Some (confidence c) /\
  box c = box_of_row (model_res self) row.

(** The invariant of the loops: the candidates present stay, and the new
    ones stand, in order, for the contributing rows met. *)
Definition extends (self : ObjectDetection) (st st' : Lists)
  (rows : list (list Q)) : Prop :=
  aligned st' /\
  exists new,
    candidates st' = candidates st ++ new /\
    Forall (fun c => confThreshold self < confidence c) new /\
    Forall2 (decoded_from self) new rows.





(** ** Fixtures *)

Definition null_net : Net :=
  mkNet [] [] (fun _ _ => Ok []) None None None.

Definition detector (thr nms : Q) (res : Z * Z)
    (classes : option (list string)) : ObjectDetection :=
  mkObjectDetection None thr nms res classes null_net.

(** The row of the scenario, as given: six fields. *)
Definition scenario_row : list Q :=
  [1 # 2; 1 # 2; 2 # 10; 2 # 10; 9 # 10; 1 # 10].

(** The same geometry and class scores in the layout the decode loop reads,
    with a fifth field [o] before the class scores. *)
Definition layout_row (o : Q) : list Q :=
  [1 # 2; 1 # 2; 2 # 10; 2 # 10; o; 9 # 10; 1 # 10].

(** ** Vocabulary of the further properties *)

(** The candidate, if any, that the decode loop appends for a row with class
    scores. *)
Definition row_candidates (self : ObjectDetection) (row : list Q)
  : list Candidate :=
  match skipn 5 row with
  | [] => []
  | x :: l =>
      if gt (max_from x l) (confThreshold self)
      then [mkCandidate (argmax_from 0 x 1 l) (max_from x l)
                        (box_of_row (model_res self) row)]
      else []
  end.

(** The class id of a candidate is the first position of the greatest class
    score of its row. *)
Definition first_max (c : Candidate) (row : list Q) : Prop :=
  (class_id c < length (skipn 5 row))%nat /\
  forall j v, (j < class_id c)%nat ->
              nth_error (skipn 5 row) j = Some v -> v < confidence c.

(** The box of a row is centred on the pixel centre of the row, up to the
    pixel lost by [int]; exactly when the pixel size is even. *)
Definition centred (res : Z * Z) (row : list Q) (b : Box) : Prop :=
  let center_x := int (nth 0 row 0 * inject_Z (fst res)) in
  let center_y := int (nth 1 row 0 * inject_Z (snd res)) in
  (Z.abs (2 * left b + width b - 2 * center_x) <= 1)%Z /\
  (Z.abs (2 * top b + height b - 2 * center_y) <= 1)%Z /\
  (Z.even (width b) = true -> (2 * left b + width b = 2 * center_x)%Z) /\
  (Z.even (height b) = true -> (2 * top b + height b = 2 * center_y)%Z).

(** A row whose four geometry fractions lie in [0,1]. *)
Definition unit_row (row : list Q) : Prop :=
  Forall (fun q => 0 <= q /\ q <= 1) (firstn 4 row) /\
  (4 <= length row)%nat.

(** A box that lies within the input resolution, give or take half of it
    on the left and top. *)
Definition near_image (res : Z * Z) (b : Box) : Prop :=
  (0 <= width b <= fst res)%Z /\ (0 <= height b <= snd res)%Z /\
  (- fst res <= 2 * left b <= 2 * fst res)%Z /\
  (- snd res <= 2 * top b <= 2 * snd res)%Z.

(** The record the assembly loop builds for the kept position [i]: its
    label comes from the class name [name], its confidence from the
    candidate confidence [q]. *)
Definition record_for (self : ObjectDetection) (st : Lists) (i : nat)
    (name : string) (q : Q) (d : Det.t) : Prop :=
  exists b,
    nth_error (boxes st) i = Some b /\
    nth_error (confidences st) i = Some q /\
    let '(r0, r1, r2, r3) :=
      calculate_relative_coords
        (left b, top b, (left b + width b)%Z, (top b + height b)%Z)
        (model_res self) in
    d = Det.mk (if nonempty name then name else "Unknown"%string)
               (round3 q) (round3 (r3 - r1)) (round3 (r2 - r0))
               (round3 r0) (round3 r1) (round3 r2) (round3 r3).

(** Where the class name of the kept position [i] comes from: the class
    table, when there is one; the label left by an earlier turn
    otherwise. *)
Definition name_for (self : ObjectDetection) (st : Lists) (i : nat)
    (label : option string) (name : string) : Prop :=
  if truthy (classes self) then
    exists names classId,
      classes self = Some names /\
      nth_error (classIds st) i = Some classId /\
      nth_error names classId = Some name
  else label = Some name.

(** Whether a string holds a newline, and whether it ends with one. *)
Fixpoint has_newline (s : string) : bool :=
  match s with
  | EmptyString => false
  | String c s' => Ascii.eqb c newline || has_newline s'
  end.

Fixpoint ends_with_newline (s : string) : bool :=
  match s with
  | EmptyString => false
  | String c EmptyString => Ascii.eqb c newline
  | String _ s' => ends_with_newline s'
  end.

(** [k] newlines. *)
Fixpoint newlines (k : nat) : string :=
  match k with
  | O => EmptyString
  | S k' => String newline (newlines k')
  end.

(** The text of a class file: one name per line, and [k] newlines at the
    end. *)
Definition class_file (names : list string) (k : nat) : string :=
  (String.concat (String newline EmptyString) names ++ newlines k)%string.

(** The layer that an entry of the unconnected output layers names: the
    layer before position [id], counting cyclically. *)
Definition names_layer (layersNames : list string) (i : list Z)
    (name : string) : Prop :=
  exists id rest,
    i = id :: rest /\
    (- Z.of_nat (length layersNames) < id <= Z.of_nat (length layersNames))%Z /\
    nth_error layersNames
              (Z.to_nat ((id - 1) mod Z.of_nat (length layersNames)))
    = Some name.

(** An entry that names no layer: it is empty, or its id is out of range. *)
Definition names_no_layer (layersNames : list string) (i : list Z) : Prop :=
  match i with
  | [] => True
  | id :: _ =>
      (id <= - Z.of_nat (length layersNames))%Z \/
      (Z.of_nat (length layersNames) < id)%Z
  end.

(** A suppressor that keeps every candidate, in the order given. *)
Definition keep_all (boxes : list Box) (confidences : list Q)
    (score_threshold nms_threshold : Q) : list nat :=
  seq 0 (length boxes).

Definition sample_names : list string := ["person"%string; "car"%string].

Definition sample_detector : ObjectDetection :=
  detector (1 # 2) (4 # 10) (416, 416)%Z (Some sample_names).

(** Two output tensors: the first two rows are above the threshold of the
    sample detector, the third is not. *)
Definition sample_outs : list (list (list Q)) :=
  [[layout_row 1];
   [[1 # 10; 1 # 10; 3 # 10; 3 # 10; 1; 2 # 10; 8 # 10];
    [0; 0; 1; 1; 1; 3 # 10; 5 # 10]]].

(** What the decode loop makes of the sample output. *)
Definition sample_lists : Lists :=
  mkLists [0%nat; 1%nat] [9 # 10; 8 # 10]
          [mkBox 166 166 83 83; mkBox (-21) (-21) 124 124].

(** The records of the sample output, every candidate kept. *)
Definition sample_dets : list Det.t :=
  [Det.mk "person" (900 # 1000) (200 # 1000) (200 # 1000)
          (399 # 1000) (399 # 1000) (599 # 1000) (599 # 1000);
   Det.mk "car" (800 # 1000) (248 # 1000) (248 # 1000)
          (0 # 1000) (0 # 1000) (248 # 1000) (248 # 1000)].

(** A suppressor that keeps every candidate and returns an index array of
    one column, and one that returns a flat index array. *)
Definition keep_all_rows (boxes : list Box) (confidences : list Q)
    (score_threshold nms_threshold : Q) : list Kept :=
  map (fun i => KeptRow [i]) (seq 0 (length boxes)).

Definition keep_all_flat (boxes : list Box) (confidences : list Q)
    (score_threshold nms_threshold : Q) : list Kept :=
  map KeptScalar (seq 0 (length boxes)).




(** An output without a class score above the threshold one half. *)
Definition quiet_outs : list (list (list Q)) :=
  [[[0; 0; 1; 1; 1; 3 # 10; 5 # 10]]].

(** * Properties *)

(** ** Comparisons and [np.argmax] *)

Lemma gt_true (x y : Q) : gt x y = true <-> y < x.
Proof.
  unfold gt. rewrite negb_true_iff. split; intro H.
  - apply Qnot_le_lt. intro Hle. apply Qle_bool_iff in Hle. congruence.
  - destruct (Qle_bool x y) eqn:E; [|reflexivity].
    apply Qle_bool_iff in E. exfalso. exact (Qlt_not_le _ _ H E).
Qed.

Lemma gt_false (x y : Q) : gt x y = false <-> x <= y.
Proof.
  unfold gt. rewrite negb_false_iff. apply Qle_bool_iff.
Qed.

Lemma max_from_ge (l : list Q) :
  forall best, best <= max_from best l /\
               forall s, In s l -> s <= max_from best l.
Proof.
  induction l as [|x l IH]; intros best; simpl.
  - split; [apply Qle_refl | intros s []].
  - destruct (gt x best) eqn:E.
    + destruct (IH x) as [Hx Hl]. apply gt_true in E. split.
      * apply Qle_trans with x; [apply Qlt_le_weak; exact E | exact Hx].
      * intros s [<-|Hs]; auto.
    + destruct (IH best) as [Hb Hl]. apply gt_false in E. split; [exact Hb|].
      intros s [<-|Hs]; [apply Qle_trans with best; assumption | auto].
Qed.

Lemma max_from_In (l : list Q) :
  forall best, In (max_from best l) (best :: l).
Proof.
  induction l as [|x l IH]; intros best; simpl.
  - left; reflexivity.
  - destruct (gt x best).
    + right. apply IH.
    + destruct (IH best) as [H|H]; [left; exact H | right; right; exact H].
Qed.

Lemma max_from_is_max (x : Q) (l : list Q) : is_max (max_from x l) (x :: l).
Proof.
  split; [apply max_from_In|].
  destruct (max_from_ge l x) as [Hx Hl].
  intros s [<-|Hs]; auto.
Qed.

(** The index returned by the scan holds the value kept by the scan. *)
Lemma argmax_from_nth (l : list Q) :
  forall (pre : list Q) best_i best,
    nth_error (pre ++ l) best_i = Some best ->
    nth_error (pre ++ l) (argmax_from best_i best (length pre) l)
    = Some (max_from best l).
Proof.
  induction l as [|x l IH]; intros pre best_i best Hbest; simpl.
  - exact Hbest.
  - specialize (IH (pre ++ [x])).
    rewrite <- app_assoc, length_app, Nat.add_1_r in IH. simpl in IH.
    destruct (gt x best).
    + apply IH. rewrite nth_error_app2 by lia.
      rewrite Nat.sub_diag. reflexivity.
    + apply IH. exact Hbest.
Qed.

(** Some score exceeds the threshold exactly when the greatest one does. *)
Lemma existsb_gt_max (thr x : Q) (l : list Q) :
  existsb (fun s => gt s thr) (x :: l) = gt (max_from x l) thr.
Proof.
  destruct (max_from_is_max x l) as [Hin Hmax].
  destruct (gt (max_from x l) thr) eqn:E.
  - apply existsb_exists. exists (max_from x l). split; assumption.
  - destruct (existsb _ _) eqn:Ex; [|reflexivity].
    apply existsb_exists in Ex. destruct Ex as [s [Hs Hgt]].
    apply gt_true in Hgt. apply gt_false in E.
    exfalso. apply (Qlt_not_le _ _ Hgt).
    apply Qle_trans with (max_from x l); auto.
Qed.

(** ** The decode loop, row by row *)

Lemma combine_snoc {A B : Type} (l : list A) (l' : list B) (a : A) (b : B) :
  length l = length l' ->
  combine (l ++ [a]) (l' ++ [b]) = combine l l' ++ [(a, b)].
Proof.
  revert l'. induction l as [|x l IH]; intros [|y l'] H; simpl in *;
    try discriminate; [reflexivity|].
  rewrite IH by lia. reflexivity.
Qed.

Lemma candidates_snoc (st : Lists) (c : nat) (q : Q) (b : Box) :
  aligned st ->
  candidates (mkLists (classIds st ++ [c]) (confidences st ++ [q])
                      (boxes st ++ [b]))
  = candidates st ++ [mkCandidate c q b].
Proof.
  intros [H1 H2]. unfold candidates. simpl.
  rewrite (combine_snoc (classIds st) (confidences st)) by exact H1.
  rewrite combine_snoc by (rewrite length_combine; lia).
  rewrite map_app. reflexivity.
Qed.

Lemma aligned_snoc (st : Lists) (c : nat) (q : Q) (b : Box) :
  aligned st ->
  aligned (mkLists (classIds st ++ [c]) (confidences st ++ [q])
                   (boxes st ++ [b])).
Proof.
  intros [H1 H2]. unfold aligned. simpl. rewrite !length_app. simpl. lia.
Qed.

Section DecodeFacts.

Variable self : ObjectDetection.

(** A row without class scores makes [np.argmax] raise. *)
Lemma decode_detection_no_scores (row : list Q) (st : Lists) :
  skipn 5 row = [] -> decode_detection self row st = Raise ValueError.
Proof.
  intros H. unfold decode_detection. rewrite H. reflexivity.
Qed.

(** A row with class scores is decoded without error: it appends one
    candidate when its greatest score is above the threshold, and leaves
    the lists as they are otherwise. *)
Lemma decode_detection_scores (row : list Q) (st : Lists) (x : Q) (l : list Q) :
  skipn 5 row = x :: l ->
  decode_detection self row st =
  if gt (max_from x l) (confThreshold self)
  then Ok (mkLists (classIds st ++ [argmax_from 0 x 1 l])
                   (confidences st ++ [max_from x l])
                   (boxes st ++ [box_of_row (model_res self) row]))
  else Ok st.
Proof.
  intros H. unfold decode_detection. rewrite H.
  pose proof (argmax_from_nth l [x] 0%nat x eq_refl) as Hn. simpl in Hn.
  cbn [argmax bind]. unfold index at 1. rewrite Hn. cbn [bind].
  destruct (gt (max_from x l) (confThreshold self)); [|reflexivity].
  destruct row as [|d0 [|d1 [|d2 [|d3 [|d4 rest]]]]]; try discriminate.
  reflexivity.
Qed.

Lemma skipn5_cases (row : list Q) :
  (skipn 5 row = [] /\ (length row < 6)%nat) \/
  (exists x l, skipn 5 row = x :: l /\ (6 <= length row)%nat).
Proof.
  destruct row as [|d0 [|d1 [|d2 [|d3 [|d4 [|x l]]]]]]; simpl;
    try (left; split; [reflexivity | lia]).
  right. exists x, l. split; [reflexivity | lia].
Qed.

(** What one row adds to the candidates. *)
Lemma decode_detection_adds (row : list Q) (st st' : Lists) :
  aligned st ->
  decode_detection self row st = Ok st' ->
  aligned st' /\
  exists new,
    candidates st' = candidates st ++ new /\
    Forall (fun c => confThreshold self < confidence c) new /\
    Forall2 (decoded_from self) new (contributing self [[row]]).
Proof.
  intros Hal Hd.
  destruct (skipn5_cases row) as [[He _]|[x [l [He _]]]].
  - rewrite (decode_detection_no_scores row st He) in Hd. discriminate.
  - rewrite (decode_detection_scores row st x l He) in Hd.
    unfold contributing. cbn [concat filter app]. rewrite He.
    rewrite existsb_gt_max.
    destruct (gt (max_from x l) (confThreshold self)) eqn:E;
      injection Hd as <-.
    + split; [apply aligned_snoc; exact Hal|].
      eexists. split; [apply candidates_snoc; exact Hal|].
      split.
      * constructor; [|constructor]. simpl. apply gt_true. exact E.
      * constructor; [|constructor]. unfold decoded_from.
        cbn [confidence class_id box]. rewrite He.
        split; [apply max_from_is_max|]. split; [|reflexivity].
        exact (argmax_from_nth l [x] 0%nat x eq_refl).
    + split; [exact Hal|]. exists []. rewrite app_nil_r.
      repeat split; constructor.
Qed.

End DecodeFacts.

(** ** The decode loop, over all rows *)

Section DecodeLoop.

Variable self : ObjectDetection.

Lemma contributing_app (outs outs' : list (list (list Q))) :
  contributing self (outs ++ outs')
  = contributing self outs ++ contributing self outs'.
Proof.
  unfold contributing. rewrite concat_app, filter_app. reflexivity.
Qed.

Lemma contributing_row (row : list Q) (rest : list (list Q)) :
  contributing self [row :: rest]
  = contributing self [[row]] ++ contributing self [rest].
Proof.
  unfold contributing. cbn [concat]. rewrite !app_nil_r.
  change (row :: rest) with ([row] ++ rest). apply filter_app.
Qed.

Lemma extends_trans (st1 st2 st3 : Lists) (rows rows' : list (list Q)) :
  extends self st1 st2 rows -> extends self st2 st3 rows' ->
  extends self st1 st3 (rows ++ rows').
Proof.
  intros [_ [n1 [E1 [F1 G1]]]] [Hal [n2 [E2 [F2 G2]]]].
  split; [exact Hal|]. exists (n1 ++ n2).
  rewrite E2, E1, app_assoc. split; [reflexivity|].
  split; [apply Forall_app; split; assumption|].
  apply Forall2_app; assumption.
Qed.

Lemma decode_out_adds (out : list (list Q)) :
  forall st st', aligned st -> decode_out self out st = Ok st' ->
                 extends self st st' (contributing self [out]).
Proof.
  induction out as [|row rest IH]; intros st st' Hal H; simpl in H.
  - injection H as <-. split; [exact Hal|]. exists [].
    rewrite app_nil_r. repeat split; constructor.
  - destruct (decode_detection self row st) as [st1|e] eqn:E1;
      [|discriminate]. cbn [bind] in H.
    pose proof (decode_detection_adds self row st st1 Hal E1) as H1.
    rewrite contributing_row.
    apply extends_trans with st1; [exact H1|].
    apply IH; [exact (proj1 H1) | exact H].
Qed.

Lemma decode_outs_adds (outs : list (list (list Q))) :
  forall st st', aligned st -> decode_outs self outs st = Ok st' ->
                 extends self st st' (contributing self outs).
Proof.
  induction outs as [|out rest IH]; intros st st' Hal H; simpl in H.
  - injection H as <-. split; [exact Hal|]. exists [].
    rewrite app_nil_r. repeat split; constructor.
  - destruct (decode_out self out st) as [st1|e] eqn:E1; [|discriminate].
    cbn [bind] in H.
    pose proof (decode_out_adds out st st1 Hal E1) as H1.
    change (out :: rest) with ([out] ++ rest). rewrite contributing_app.
    apply extends_trans with st1; [exact H1|].
    apply IH; [exact (proj1 H1) | exact H].
Qed.

(** The only exception of the decode loop is the [ValueError] of
    [np.argmax], on a row of fewer than six fields. *)
Lemma decode_detection_raises (row : list Q) (st : Lists) (e : exn) :
  decode_detection self row st = Raise e ->
  e = ValueError /\ (length row < 6)%nat.
Proof.
  intros H. destruct (skipn5_cases row) as [[He Hl]|[x [l [He _]]]].
  - rewrite (decode_detection_no_scores self row st He) in H.
    injection H as <-. split; [reflexivity | exact Hl].
  - rewrite (decode_detection_scores self row st x l He) in H.
    destruct (gt _ _); discriminate.
Qed.

Lemma decode_detection_short (row : list Q) (st : Lists) :
  (length row < 6)%nat -> decode_detection self row st = Raise ValueError.
Proof.
  intros Hl. destruct (skipn5_cases row) as [[He _]|[x [l [_ Hge]]]].
  - apply decode_detection_no_scores. exact He.
  - lia.
Qed.

Lemma decode_out_outcome (out : list (list Q)) :
  forall st,
    (Forall (fun row => (6 <= length row)%nat) out ->
     exists st', decode_out self out st = Ok st') /\
    (Exists (fun row => (length row < 6)%nat) out ->
     decode_out self out st = Raise ValueError).
Proof.
  induction out as [|row rest IH]; intros st; simpl.
  - split; [intros _; eexists; reflexivity | intros H; inversion H].
  - destruct (decode_detection self row st) as [st1|e] eqn:E1; cbn [bind].
    + split.
      * intros H. inversion H; subst. apply IH. assumption.
      * intros H. inversion H; subst.
        -- rewrite decode_detection_short in E1 by assumption. discriminate.
        -- apply IH. assumption.
    + destruct (decode_detection_raises row st e E1) as [-> Hl]. split.
      * intros H. inversion H; subst. lia.
      * reflexivity.
Qed.

Lemma decode_outs_outcome (outs : list (list (list Q))) :
  forall st,
    (Forall (fun row => (6 <= length row)%nat) (concat outs) ->
     exists st', decode_outs self outs st = Ok st') /\
    (Exists (fun row => (length row < 6)%nat) (concat outs) ->
     decode_outs self outs st = Raise ValueError).
Proof.
  induction outs as [|out rest IH]; intros st; simpl.
  - split; [intros _; eexists; reflexivity | intros H; inversion H].
  - destruct (decode_out_outcome out st) as [Hok Hbad]. split.
    + intros H. apply Forall_app in H. destruct H as [Ho Hr].
      destruct (Hok Ho) as [st1 ->]. cbn [bind]. apply IH. exact Hr.
    + intros H. apply Exists_app in H.
      destruct (decode_out self out st) as [st1|e] eqn:E1; cbn [bind].
      * destruct H as [H|H]; [pose proof (Hbad H); congruence|].
        apply IH. exact H.
      * destruct (Exists_dec (fun row => (length row < 6)%nat) out)
          as [Hx|Hn]; [intros r; apply lt_dec | |].
        -- pose proof (Hbad Hx). congruence.
        -- exfalso. destruct Hok as [st1 Hst1]; [|congruence].
           apply Forall_forall. intros r Hr.
           destruct (le_lt_dec 6 (length r)); [assumption|].
           exfalso. apply Hn. apply Exists_exists. exists r. auto.
Qed.

End DecodeLoop.

(** ** Claims on the decode loop *)

(** C1, as stated, fails: the class scores of a row are its fields from
    index 5 on, so the six-field row of the scenario has the single class
    score 0.1 and yields no candidate at threshold 0.5. *)
Lemma scenario_row_yields_no_candidate :
  decode (detector (1 # 2) (4 # 10) (416, 416)%Z None) [[scenario_row]]
  = Ok no_lists /\
  ~ exists st,
      decode (detector (1 # 2) (4 # 10) (416, 416)%Z None) [[scenario_row]]
      = Ok st /\
      candidates st = [mkCandidate 0 (9 # 10) (mkBox 166 166 83 83)].
Proof.
  split; [reflexivity|].
  intros [st [H Hc]]. vm_compute in H. injection H as <-. discriminate.
Qed.

(** C1, amended: at resolution 416x416 and threshold 0.5, the row
    [0.5, 0.5, 0.2, 0.2, o, 0.9, 0.1], whose class scores [0.9, 0.1] start
    at index 5, yields exactly one candidate, of class 0, confidence 0.9 and
    box (166, 166, 83, 83), whatever the fifth field [o], the NMS threshold,
    the class table and the network; the six-field row of the scenario
    yields none. *)
Theorem scenario_decodes_in_code_layout :
  forall (inp : option string) (nms : Q) (names : option (list string))
         (n : Net) (o : Q),
    let self := mkObjectDetection inp (1 # 2) nms (416, 416)%Z names n in
    (exists st, decode self [[layout_row o]] = Ok st /\
                candidates st
                = [mkCandidate 0 (9 # 10) (mkBox 166 166 83 83)]) /\
    (exists st, decode self [[scenario_row]] = Ok st /\ candidates st = []).
Proof.
  intros inp nms names n o self. split.
  - eexists. split; reflexivity.
  - eexists. split; reflexivity.
Qed.

(** C2: every candidate of the decode loop has a confidence strictly above
    the confidence threshold; the candidates stand one for one, in order,
    for the rows with a class score above the threshold, each with the
    greatest class score of its row as confidence; and a row whose greatest
    class score is at most the threshold is not among those rows. *)
Theorem decode_threshold :
  forall (self : ObjectDetection) (outs : list (list (list Q))) (st : Lists),
    decode self outs = Ok st ->
    Forall (fun c => confThreshold self < confidence c) (candidates st) /\
    Forall2 (decoded_from self) (candidates st) (contributing self outs) /\
    (forall row m,
        In row (concat outs) -> is_max m (skipn 5 row) ->
        m <= confThreshold self -> ~ In row (contributing self outs)).
Proof.
  intros self outs st H.
  destruct (decode_outs_adds self outs no_lists st) as [_ [new [E [F G]]]];
    [split; reflexivity | exact H |].
  change (candidates no_lists) with (@nil Candidate) in E. simpl in E.
  rewrite E. split; [exact F|]. split; [exact G|].
  intros row m _ [_ Hmax] Hle Hin.
  apply filter_In in Hin. destruct Hin as [_ Hex].
  apply existsb_exists in Hex. destruct Hex as [s [Hs Hgt]].
  apply gt_true in Hgt. apply (Qlt_not_le _ _ Hgt).
  apply Qle_trans with m; [apply Hmax; exact Hs | exact Hle].
Qed.

Lemma decode_threshold_witness :
  let self := detector (1 # 2) (4 # 10) (416, 416)%Z None in
  let outs := [[layout_row 1; [0; 0; 1; 1; 1; 3 # 10; 5 # 10]]] in
  let st := mkLists [0%nat] [9 # 10] [mkBox 166 166 83 83] in
  Forall (fun c => confThreshold self < confidence c) (candidates st) /\
  Forall2 (decoded_from self) (candidates st) (contributing self outs) /\
  (forall row m,
      In row (concat outs) -> is_max m (skipn 5 row) ->
      m <= confThreshold self -> ~ In row (contributing self outs)).
Proof.
  intros self outs st. apply (decode_threshold self outs st). reflexivity.
Defined.

(** C6, as stated, fails: a row of five fields has no class score, and the
    decode loop does not skip it: [np.argmax] raises [ValueError]. *)
Lemma row_without_scores_raises :
  decode (detector (1 # 2) (4 # 10) (416, 416)%Z None)
         [[[1 # 2; 1 # 2; 2 # 10; 2 # 10; 9 # 10]]]
  = Raise ValueError.
Proof. reflexivity. Qed.

(** C6, amended: a row whose class-score sub-vector is empty yields no
    candidate, but it is not skipped: the decode loop, and [postprocess]
    with it, fail with [ValueError], whatever the other rows are. *)
Theorem row_without_scores_fails :
  forall (self : ObjectDetection) (outs : list (list (list Q)))
         (row : list Q),
    In row (concat outs) -> skipn 5 row = [] ->
    decode self outs = Raise ValueError /\
    postprocess self outs = Raise ValueError.
Proof.
  intros self outs row Hin Hs.
  assert (Hd : decode self outs = Raise ValueError).
  { apply (decode_outs_outcome self outs no_lists).
    apply Exists_exists. exists row. split; [exact Hin|].
    apply skipn_all_iff in Hs. lia. }
  split; [exact Hd|].
  unfold postprocess, postprocess_with. rewrite Hd. reflexivity.
Qed.

Lemma row_without_scores_fails_witness :
  let self := detector (1 # 2) (4 # 10) (416, 416)%Z None in
  let outs := [[layout_row 1; [1 # 2; 1 # 2; 2 # 10; 2 # 10; 9 # 10]]] in
  decode self outs = Raise ValueError /\
  postprocess self outs = Raise ValueError.
Proof.
  intros self outs.
  apply (row_without_scores_fails self outs
           [1 # 2; 1 # 2; 2 # 10; 2 # 10; 9 # 10]).
  - simpl. right. left. reflexivity.
  - reflexivity.
Defined.

(** C9, as stated, fails: with a class table of two names a row of six
    fields has fewer than 5 + 2 fields, and it is decoded without any
    error. *)
Lemma short_row_decoded_silently :
  decode (detector (1 # 2) (4 # 10) (416, 416)%Z
                   (Some ["person"%string; "car"%string]))
         [[[1 # 2; 1 # 2; 2 # 10; 2 # 10; 1; 9 # 10]]]
  = Ok (mkLists [0%nat] [9 # 10] [mkBox 166 166 83 83]).
Proof. reflexivity. Qed.

(** C9, amended: the decode loop does not compare the length of a row with
    the number of classes.  It decodes without error when every row has at
    least six fields, and fails with [ValueError] when some row has fewer
    than six. *)
Theorem decode_outcome_by_row_length :
  forall (self : ObjectDetection) (outs : list (list (list Q))),
    (Forall (fun row => (6 <= length row)%nat) (concat outs) ->
     exists st, decode self outs = Ok st) /\
    (Exists (fun row => (length row < 6)%nat) (concat outs) ->
     decode self outs = Raise ValueError).
Proof.
  intros self outs. apply (decode_outs_outcome self outs no_lists).
Qed.

Lemma decode_outcome_by_row_length_witness :
  (exists st,
      decode (detector (1 # 2) (4 # 10) (416, 416)%Z
                       (Some ["person"%string; "car"%string]))
             [[[1 # 2; 1 # 2; 2 # 10; 2 # 10; 1; 9 # 10]]] = Ok st) /\
  decode (detector (1 # 2) (4 # 10) (416, 416)%Z
                   (Some ["person"%string; "car"%string]))
         [[[1 # 2; 1 # 2; 2 # 10; 2 # 10; 1]]] = Raise ValueError.
Proof.
  split.
  - apply (decode_outcome_by_row_length _ _).
    repeat constructor.
  - apply (decode_outcome_by_row_length _ _).
    constructor. simpl. lia.
Defined.

(** ** Suppression *)

Lemma intersection_area_comm (a b : Box) :
  intersection_area a b = intersection_area b a.
Proof.
  unfold intersection_area.
  rewrite (Z.min_comm (left a + width a)), (Z.max_comm (left a)).
  rewrite (Z.min_comm (top a + height a)), (Z.max_comm (top a)).
  reflexivity.
Qed.

Lemma IoU_comm (a b : Box) : IoU a b = IoU b a.
Proof.
  unfold IoU.
  rewrite (intersection_area_comm a b), orb_comm, (Z.add_comm (area a)).
  reflexivity.
Qed.

Lemma IoU_zero_area (a b : Box) :
  area a = 0%Z \/ area b = 0%Z -> IoU a b = 0.
Proof.
  unfold IoU. intros [H|H]; rewrite H; simpl; [|rewrite orb_true_r];
    reflexivity.
Qed.

Section SuppressFacts.

Variables (boxes : list Box) (confidences : list Q) (nms_threshold : Q).

Lemma survives_true (k r : nat) :
  survives boxes nms_threshold k r = true
  <-> IoU (box_at boxes r) (box_at boxes k) < nms_threshold.
Proof. apply gt_true. Qed.

Lemma greedy_In (l : list nat) :
  forall i, In i (greedy boxes nms_threshold l) -> In i l.
Proof.
  funelim (greedy boxes nms_threshold l); simp greedy; intros i Hi.
  destruct Hi as [<-|Hi]; [left; reflexivity|].
  right. apply H in Hi. apply filter_In in Hi. apply Hi.
Qed.

Lemma greedy_length (l : list nat) :
  (length (greedy boxes nms_threshold l) <= length l)%nat.
Proof.
  funelim (greedy boxes nms_threshold l); simp greedy; simpl; try lia.
  pose proof (filter_length_le (survives boxes nms_threshold k) rest). lia.
Qed.

Lemma greedy_NoDup (l : list nat) :
  NoDup l -> NoDup (greedy boxes nms_threshold l).
Proof.
  funelim (greedy boxes nms_threshold l); simp greedy; intros Hnd;
    try solve [constructor].
  inversion Hnd; subst. constructor.
  - intros Hin. apply greedy_In in Hin. apply filter_In in Hin. tauto.
  - apply H. apply NoDup_filter. assumption.
Qed.

(** Two distinct kept candidates overlap by less than the threshold. *)
Lemma greedy_pairwise (l : list nat) :
  forall i j,
    In i (greedy boxes nms_threshold l) ->
    In j (greedy boxes nms_threshold l) -> i <> j ->
    IoU (box_at boxes i) (box_at boxes j) < nms_threshold.
Proof.
  funelim (greedy boxes nms_threshold l); simp greedy; intros i j Hi Hj Hne;
    try solve [destruct Hi].
  destruct Hi as [<-|Hi], Hj as [<-|Hj].
  - congruence.
  - apply greedy_In in Hj. apply filter_In in Hj.
    rewrite IoU_comm. apply survives_true. apply Hj.
  - apply greedy_In in Hi. apply filter_In in Hi.
    apply survives_true. apply Hi.
  - apply H; assumption.
Qed.


Lemma insert_desc_perm (i : nat) (l : list nat) :
  Permutation (insert_desc confidences i l) (i :: l).
Proof.
  induction l as [|j l IH]; simpl; [reflexivity|].
  destruct (Qle_bool _ _); [reflexivity|].
  rewrite IH. apply perm_swap.
Qed.

Lemma sort_desc_perm (l : list nat) :
  Permutation (sort_desc confidences l) l.
Proof.
  induction l as [|i l IH]; simpl; [reflexivity|].
  rewrite insert_desc_perm. constructor. exact IH.
Qed.



End SuppressFacts.

(** C3: the suppressor keeps at most as many candidates as it is given,
    each kept once and each a position of the candidate list; any two
    distinct kept candidates have boxes whose IoU (which is 0 when a box has
    zero area) is strictly below the IoU threshold; and an empty candidate
    list yields an empty kept set. *)
Theorem suppression_bounds :
  forall (boxes : list Box) (confidences : list Q) (cthr ithr : Q),
    let kept := NMSBoxes boxes confidences cthr ithr in
    (length kept <= length boxes)%nat /\
    NoDup kept /\
    (forall i, In i kept -> (i < length boxes)%nat) /\
    (forall i j, In i kept -> In j kept -> i <> j ->
                 IoU (box_at boxes i) (box_at boxes j) < ithr) /\
    (forall a b, area a = 0%Z \/ area b = 0%Z -> IoU a b = 0) /\
    NMSBoxes [] confidences cthr ithr = [].
Proof.
  intros boxes confidences cthr ithr kept. unfold kept, NMSBoxes.
  pose proof (sort_desc_perm confidences (seq 0 (length boxes))) as Hp.
  assert (Hnd : NoDup (sort_desc confidences (seq 0 (length boxes)))).
  { apply (Permutation_NoDup (Permutation_sym Hp)). apply seq_NoDup. }
  split.
  { etransitivity; [apply greedy_length|].
    rewrite (Permutation_length Hp), length_seq. apply le_n. }
  split; [apply greedy_NoDup; exact Hnd|].
  split.
  { intros i Hi. apply greedy_In in Hi.
    apply (Permutation_in _ Hp) in Hi. apply in_seq in Hi. lia. }
  split; [apply greedy_pairwise|].
  split; [exact IoU_zero_area | reflexivity].
Qed.




(** ** The assembly loop *)

Section AssembleFacts.

Variable self : ObjectDetection.
Variable st : Lists.

(** Without a class table the first turn of the loop reads [label] before
    any assignment. *)
Lemma assemble_index_unbound (i : nat) :
  truthy (classes self) = false ->
  (i < length (boxes st))%nat ->
  assemble_index self st i None = Raise UnboundLocalError.
Proof.
  intros Hc Hi. unfold assemble_index, index.
  destruct (nth_error (boxes st) i) as [b|] eqn:E.
  - cbn [bind]. rewrite Hc. cbn [bind].
    destruct (calculate_relative_coords _ _) as [[[r0 r1] r2] r3].
    reflexivity.
  - apply nth_error_None in E. lia.
Qed.

Lemma assemble_unbound (i : nat) (rest : list nat) (dets : list Det.t) :
  truthy (classes self) = false ->
  (i < length (boxes st))%nat ->
  assemble self st (i :: rest) None dets = Raise UnboundLocalError.
Proof.
  intros Hc Hi. simpl. rewrite assemble_index_unbound by assumption.
  reflexivity.
Qed.

(** With a class table, a class id outside it makes the lookup raise. *)
Lemma assemble_index_out_of_range (i classId : nat) (names : list string)
    (lbl : option string) :
  classes self = Some names -> names <> [] ->
  (i < length (boxes st))%nat ->
  nth_error (classIds st) i = Some classId ->
  (length names <= classId)%nat ->
  assemble_index self st i lbl = Raise IndexError.
Proof.
  intros Hc Hne Hi Hid Hlen. unfold assemble_index, index.
  destruct (nth_error (boxes st) i) as [b|] eqn:E.
  - cbn [bind]. rewrite Hc. destruct names as [|n0 names']; [congruence|].
    cbn [truthy]. rewrite Hid. cbn [bind].
    apply nth_error_None in Hlen. rewrite Hlen. reflexivity.
  - apply nth_error_None in E. lia.
Qed.

(** With a class table and a class id inside it, the record is labelled
    with the class name, or with "Unknown" when the name is empty. *)
Lemma assemble_index_labelled (i classId : nat) (names : list string)
    (name : string) (b : Box) (q : Q) (lbl : option string) :
  classes self = Some names ->
  nth_error (boxes st) i = Some b ->
  nth_error (classIds st) i = Some classId ->
  nth_error names classId = Some name ->
  nth_error (confidences st) i = Some q ->
  exists d,
    assemble_index self st i lbl = Ok (Some name, d) /\
    Det.label d = (if nonempty name then name else "Unknown"%string) /\
    Det.confidence d = round3 q.
Proof.
  intros Hc Hb Hid Hn Hq. unfold assemble_index, index.
  rewrite Hb. cbn [bind]. rewrite Hc.
  destruct names as [|n0 names']; [destruct classId; discriminate|].
  cbn [truthy]. rewrite Hid. cbn [bind]. rewrite Hn. cbn [bind].
  destruct (calculate_relative_coords _ _) as [[[r0 r1] r2] r3].
  cbn [bind]. rewrite Hq. cbn [bind].
  eexists. split; [reflexivity|]. split; reflexivity.
Qed.

End AssembleFacts.

(** A class table read from a file is never empty, and no class file gives
    no class table. *)
Lemma split_newline_nonempty (s : string) : split_newline s <> [].
Proof.
  destruct s as [|c s]; simpl; [discriminate|].
  destruct (Ascii.eqb c newline); [discriminate|].
  destruct (split_newline s); discriminate.
Qed.

Lemma load_classes_absent (read_text : string -> option string) :
  load_classes read_text None = Ok None.
Proof. reflexivity. Qed.

(** C4 holds of the intent written in the loop ([label if label else
    "Unknown"]) but not of what the loop does.  Without a class table the
    one candidate of the row below reaches the assembly loop and the read of
    [label] raises [UnboundLocalError]; with a table of one name and a
    candidate of class 1 the table lookup raises [IndexError].  Neither
    detection is labelled "Unknown". *)
Theorem label_fallback_raises :
  postprocess (detector (1 # 2) (4 # 10) (416, 416)%Z None) [[layout_row 1]]
  = Raise UnboundLocalError /\
  postprocess (detector (1 # 2) (4 # 10) (416, 416)%Z (Some ["person"%string]))
              [[[1 # 2; 1 # 2; 2 # 10; 2 # 10; 1; 1 # 10; 9 # 10]]]
  = Raise IndexError.
Proof. split; reflexivity. Qed.

(** ** Construction *)

(** C8, as stated, fails: a confidence threshold of 2, an NMS threshold of
    -1 and a resolution of (0, -5) are accepted and stored. *)
Lemma out_of_range_parameters_accepted :
  exists self,
    __init__ (fun _ => Some "person"%string) (fun _ _ _ => Some null_net)
         None "yolo.weights"%string (Some "yolo.cfg"%string)
         (Some "coco.names"%string) 2 (- (1)) (0, -5)%Z
    = Ok self /\
    confThreshold self = 2 /\ nmsThreshold self = - (1) /\
    model_res self = (0, -5)%Z.
Proof. eexists. split; [reflexivity|]. repeat split. Qed.

(** C8, amended: construction does not validate its parameters.  Whether
    it succeeds depends on the class file and the network only: it raises
    [OSError] when the class file cannot be opened, the error of
    [cv.dnn.readNet] when the network cannot be loaded, and otherwise
    succeeds and stores thresholds and resolution as given, whatever their
    values. *)
Theorem init_stores_parameters_unchecked :
  forall (read_text : string -> option string)
         (readNet : string -> option string -> string -> option Net)
         (inp : option string) (model : string) (config names : option string)
         (thr nms : Q) (res : Z * Z),
    match __init__ read_text readNet inp model config names thr nms res with
    | Ok self =>
        confThreshold self = thr /\ nmsThreshold self = nms /\
        model_res self = res /\
        load_classes read_text names = Ok (classes self) /\
        exists n, readNet model config "darknet"%string = Some n
    | Raise e =>
        (e = OSError /\ load_classes read_text names = Raise OSError) \/
        (e = CvError /\ readNet model config "darknet"%string = None)
    end.
Proof.
  intros read_text readNet inp model config names thr nms res.
  unfold __init__.
  destruct (load_classes read_text names) as [cl|e] eqn:El; cbn [bind].
  - unfold load_network.
    destruct (readNet model config "darknet"%string) as [n|] eqn:En;
      cbn [bind].
    + repeat split. exists n. reflexivity.
    + right. split; reflexivity.
  - left. unfold load_classes in El.
    destruct names as [[|c path]|]; try discriminate.
    destruct (read_text (String c path)); [discriminate|].
    injection El as <-. split; reflexivity.
Qed.

(** ** Truncation, rounding and clamping *)

Lemma int_nonneg (x : Q) : 0 <= x -> (0 <= int x)%Z.
Proof.
  destruct x as [n d]. unfold Qle, int. simpl. intros H.
  apply Z.quot_pos; lia.
Qed.

Lemma round_half_even_bounds (x : Q) :
  (Qfloor x <= round_half_even x <= Qfloor x + 1)%Z.
Proof.
  unfold round_half_even.
  destruct (Qcompare _ _); [destruct (Z.even _)| |]; lia.
Qed.

Lemma Qcompare_cases (x y : Q) :
  match Qcompare x y with
  | Eq => x == y
  | Lt => x < y
  | Gt => y < x
  end.
Proof.
  destruct (Qcompare x y) eqn:C;
    [apply Qeq_alt | apply Qlt_alt | apply Qgt_alt]; exact C.
Qed.

Lemma round_half_even_mono (x y : Q) :
  x <= y -> (round_half_even x <= round_half_even y)%Z.
Proof.
  intros Hxy. pose proof (Qfloor_resp_le x y Hxy) as Hf.
  destruct (Z.eq_dec (Qfloor x) (Qfloor y)) as [E|E].
  - unfold round_half_even. rewrite <- E.
    pose proof (Qcompare_cases (x - inject_Z (Qfloor x)) (1 # 2)) as Cx.
    pose proof (Qcompare_cases (y - inject_Z (Qfloor x)) (1 # 2)) as Cy.
    destruct (Qcompare (x - inject_Z (Qfloor x)) (1 # 2));
      destruct (Qcompare (y - inject_Z (Qfloor x)) (1 # 2));
      try (destruct (Z.even (Qfloor x))); try lia; exfalso; lra.
  - pose proof (round_half_even_bounds x).
    pose proof (round_half_even_bounds y). lia.
Qed.

Lemma round3_mono (x y : Q) : x <= y -> round3 x <= round3 y.
Proof.
  intros H. unfold round3. apply Qmult_le_compat_r; [|discriminate].
  rewrite <- Zle_Qle. apply round_half_even_mono.
  apply Qmult_le_compat_r; [exact H | discriminate].
Qed.




(** ** Bounds of the relative coordinates *)





Section Bounds.

Variable self : ObjectDetection.
Hypothesis res_x : fst (model_res self) <> 0%Z.
Hypothesis res_y : snd (model_res self) <> 0%Z.







End Bounds.




(** * Further properties of the code *)

(** ** The decode loop as a function of the rows *)

Lemma bind_Ok {A : Type} (c : result A) : (x <- c ;; Ok x) = c.
Proof. destruct c; reflexivity. Qed.

Lemma aligned_projections (st : Lists) :
  aligned st ->
  classIds st = map class_id (candidates st) /\
  confidences st = map confidence (candidates st) /\
  boxes st = map box (candidates st).
Proof.
  destruct st as [ids confs bxs]. unfold aligned, candidates. simpl.
  revert confs bxs.
  induction ids as [|i ids IH]; intros [|q confs] [|b bxs] [H1 H2];
    simpl in *; try discriminate; [repeat split|].
  destruct (IH confs bxs) as [E1 [E2 E3]]; [split; lia|].
  rewrite <- E1, <- E2, <- E3. repeat split.
Qed.

Section DecodeFunction.

Variable self : ObjectDetection.

Lemma decode_detection_candidates (row : list Q) (st st' : Lists) :
  aligned st -> decode_detection self row st = Ok st' ->
  aligned st' /\
  candidates st' = candidates st ++ row_candidates self row.
Proof.
  intros Hal H. unfold row_candidates.
  destruct (skipn5_cases row) as [[He _]|[x [l [He _]]]].
  - rewrite (decode_detection_no_scores self row st He) in H. discriminate.
  - rewrite (decode_detection_scores self row st x l He) in H. rewrite He.
    destruct (gt (max_from x l) (confThreshold self)); injection H as <-.
    + split; [apply aligned_snoc; exact Hal | apply candidates_snoc; exact Hal].
    + split; [exact Hal | symmetry; apply app_nil_r].
Qed.

Lemma decode_out_candidates (out : list (list Q)) :
  forall st st',
    aligned st -> decode_out self out st = Ok st' ->
    aligned st' /\
    candidates st' = candidates st ++ flat_map (row_candidates self) out.
Proof.
  induction out as [|row rest IH]; intros st st' Hal H; simpl in H.
  - injection H as <-. split; [exact Hal | symmetry; apply app_nil_r].
  - destruct (decode_detection self row st) as [st1|e] eqn:E1; [|discriminate].
    cbn [bind] in H.
    destruct (decode_detection_candidates row st st1 Hal E1) as [Hal1 Hc1].
    destruct (IH st1 st' Hal1 H) as [Hal' Hc']. split; [exact Hal'|].
    rewrite Hc', Hc1, <- app_assoc. reflexivity.
Qed.

Lemma decode_out_app (a b : list (list Q)) :
  forall st,
    decode_out self (a ++ b) st
    = (st' <- decode_out self a st ;; decode_out self b st').
Proof.
  induction a as [|row a IH]; intros st; simpl; [reflexivity|].
  destruct (decode_detection self row st); cbn [bind]; [apply IH|reflexivity].
Qed.

Lemma decode_outs_concat (outs : list (list (list Q))) :
  forall st, decode_outs self outs st = decode_out self (concat outs) st.
Proof.
  induction outs as [|out rest IH]; intros st; simpl; [reflexivity|].
  rewrite decode_out_app.
  destruct (decode_out self out st); cbn [bind]; [apply IH|reflexivity].
Qed.

Lemma decode_candidates (outs : list (list (list Q))) (st : Lists) :
  decode self outs = Ok st ->
  aligned st /\
  candidates st = flat_map (row_candidates self) (concat outs).
Proof.
  unfold decode. rewrite decode_outs_concat. intros H.
  apply (decode_out_candidates (concat outs) no_lists st);
    [split; reflexivity | exact H].
Qed.

Lemma row_candidates_length (row : list Q) :
  (length (row_candidates self row) <= 1)%nat.
Proof.
  unfold row_candidates. destruct (skipn 5 row); [simpl; lia|].
  destruct (gt _ _); simpl; lia.
Qed.

Lemma flat_map_row_candidates_length (rows : list (list Q)) :
  (length (flat_map (row_candidates self) rows) <= length rows)%nat.
Proof.
  induction rows as [|row rows IH]; simpl; [lia|].
  rewrite length_app. pose proof (row_candidates_length row). lia.
Qed.

End DecodeFunction.

(** X1: when the decode loop ends, [classIds], [confidences] and [boxes]
    have the same length, which is the number of candidates and at most the
    number of rows. *)
Theorem decode_lists_in_lockstep :
  forall (self : ObjectDetection) (outs : list (list (list Q))) (st : Lists),
    decode self outs = Ok st ->
    length (classIds st) = length (boxes st) /\
    length (confidences st) = length (boxes st) /\
    length (candidates st) = length (boxes st) /\
    (length (boxes st) <= length (concat outs))%nat.
Proof.
  intros self outs st H.
  destruct (decode_candidates self outs st H) as [Hal Hc].
  destruct (aligned_projections st Hal) as [_ [_ Hb]].
  destruct Hal as [H1 H2].
  assert (Hl : length (candidates st) = length (boxes st))
    by (rewrite Hb, length_map; reflexivity).
  repeat split; try lia.
  rewrite <- Hl, Hc. apply flat_map_row_candidates_length.
Qed.

(** X2: the decode loop does not depend on how the rows are grouped into
    output tensors: decoding [outs] gives what decoding the single tensor of
    all their rows, in order, gives, errors included. *)
Theorem decode_ignores_grouping :
  forall (self : ObjectDetection) (outs : list (list (list Q))),
    decode self outs = decode self [concat outs].
Proof.
  intros self outs. unfold decode. rewrite !decode_outs_concat.
  simpl. rewrite app_nil_r. reflexivity.
Qed.

Lemma argmax_from_first (l : list Q) :
  forall (pre : list Q) best_i best,
    (best_i < length pre)%nat ->
    (forall j v, (j < best_i)%nat -> nth_error pre j = Some v -> v < best) ->
    (forall v, In v pre -> v <= best) ->
    forall j v,
      (j < argmax_from best_i best (length pre) l)%nat ->
      nth_error (pre ++ l) j = Some v -> v < max_from best l.
Proof.
  induction l as [|x l IH]; intros pre best_i best Hi Hlt Hle j v Hj Hv;
    simpl in *.
  - rewrite app_nil_r in Hv. eapply Hlt; eassumption.
  - specialize (IH (pre ++ [x])).
    rewrite <- app_assoc, length_app, Nat.add_1_r in IH. simpl in IH.
    destruct (gt x best) eqn:E.
    + apply gt_true in E. apply (IH (length pre) x) with (j := j); auto.
      * intros j' v' Hj' Hv'. rewrite nth_error_app1 in Hv' by exact Hj'.
        apply Qle_lt_trans with best; [|exact E].
        apply Hle. eapply nth_error_In. exact Hv'.
      * intros v' Hin. apply in_app_or in Hin. destruct Hin as [Hin|[<-|[]]].
        -- apply Qle_trans with best; [auto | apply Qlt_le_weak; exact E].
        -- apply Qle_refl.
    + apply gt_false in E. apply (IH best_i best) with (j := j); auto.
      * intros j' v' Hj' Hv'.
        rewrite nth_error_app1 in Hv' by lia. eapply Hlt; eassumption.
      * intros v' Hin. apply in_app_or in Hin. destruct Hin as [Hin|[<-|[]]];
          auto.
Qed.

Lemma row_candidates_first_max (self : ObjectDetection) (row : list Q)
    (c : Candidate) :
  In c (row_candidates self row) -> first_max c row.
Proof.
  unfold row_candidates, first_max.
  destruct (skipn 5 row) as [|x l] eqn:He; [intros []|].
  destruct (gt _ _); [|intros []]. intros [<-|[]].
  cbn [class_id confidence].
  pose proof (argmax_from_nth l [x] 0%nat x eq_refl) as Hn. simpl in Hn.
  split.
  - apply (proj1 (nth_error_Some (x :: l) _)). rewrite Hn. discriminate.
  - intros j v Hj Hv.
    apply (argmax_from_first l [x] 0%nat x) with (j := j); simpl; auto.
    + intros j' v' Hj'. lia.
    + intros v' [<-|[]]. apply Qle_refl.
Qed.

(** Candidates and contributing rows, side by side. *)
Lemma candidates_by_row (self : ObjectDetection)
    (P : Candidate -> list Q -> Prop) (rows : list (list Q)) :
  (forall row c, In row rows -> In c (row_candidates self row) -> P c row) ->
  Forall2 P (flat_map (row_candidates self) rows)
            (filter (fun row => existsb (fun s => gt s (confThreshold self))
                                        (skipn 5 row)) rows).
Proof.
  induction rows as [|row rows IH]; intros HP; [constructor|].
  cbn [flat_map filter].
  assert (IH' : Forall2 P (flat_map (row_candidates self) rows)
                  (filter (fun row => existsb
                                        (fun s => gt s (confThreshold self))
                                        (skipn 5 row)) rows)).
  { apply IH. intros r c Hr. apply HP. right. exact Hr. }
  assert (Hrow : forall c, In c (row_candidates self row) -> P c row).
  { intros c. apply HP. left. reflexivity. }
  unfold row_candidates at 1. unfold row_candidates in Hrow.
  destruct (skipn 5 row) as [|x l] eqn:He.
  - simpl. exact IH'.
  - rewrite existsb_gt_max.
    destruct (gt (max_from x l) (confThreshold self)).
    + simpl. constructor; [|exact IH'].
      apply Hrow; left; reflexivity.
    + exact IH'.
Qed.

(** X3: the class id of a candidate is the first position of the greatest
    class score of its row: it lies within the class scores, and every score
    before it is strictly smaller than the confidence.  Ties go to the lowest
    class id. *)
Theorem decode_ties_go_to_lowest_class :
  forall (self : ObjectDetection) (outs : list (list (list Q))) (st : Lists),
    decode self outs = Ok st ->
    Forall2 first_max (candidates st) (contributing self outs).
Proof.
  intros self outs st H.
  destruct (decode_candidates self outs st H) as [_ ->].
  apply candidates_by_row. intros row c _. apply row_candidates_first_max.
Qed.

Lemma row_candidates_raise_threshold (self self' : ObjectDetection)
    (row : list Q) :
  model_res self' = model_res self ->
  confThreshold self <= confThreshold self' ->
  row_candidates self' row
  = filter (fun c => gt (confidence c) (confThreshold self'))
           (row_candidates self row).
Proof.
  intros Hres Hthr. unfold row_candidates. rewrite Hres.
  destruct (skipn 5 row) as [|x l]; [reflexivity|].
  destruct (gt (max_from x l) (confThreshold self')) eqn:E'.
  - assert (E : gt (max_from x l) (confThreshold self) = true).
    { apply gt_true. apply gt_true in E'.
      apply Qle_lt_trans with (confThreshold self'); assumption. }
    rewrite E. simpl. rewrite E'. reflexivity.
  - destruct (gt (max_from x l) (confThreshold self)); [|reflexivity].
    simpl. rewrite E'. reflexivity.
Qed.

(** X4: raising the confidence threshold, at the same [model_res], only
    removes candidates: decoding succeeds again, and its candidates are those
    of the lower threshold whose confidence exceeds the higher threshold, in
    the same order. *)
Theorem raising_threshold_filters_candidates :
  forall (self self' : ObjectDetection) (outs : list (list (list Q)))
         (st : Lists),
    model_res self' = model_res self ->
    confThreshold self <= confThreshold self' ->
    decode self outs = Ok st ->
    exists st',
      decode self' outs = Ok st' /\
      candidates st'
      = filter (fun c => gt (confidence c) (confThreshold self'))
               (candidates st).
Proof.
  intros self self' outs st Hres Hthr H.
  assert (Hok : exists st', decode self' outs = Ok st').
  { destruct (decode_outs_outcome self' outs no_lists) as [Hgood _].
    apply Hgood. apply Forall_forall. intros row Hin.
    destruct (le_lt_dec 6 (length row)) as [Hl|Hl]; [exact Hl|].
    exfalso.
    destruct (decode_outs_outcome self outs no_lists) as [_ Hbad].
    unfold decode in H. rewrite Hbad in H; [discriminate|].
    apply Exists_exists. exists row. auto. }
  destruct Hok as [st' H']. exists st'. split; [exact H'|].
  destruct (decode_candidates self outs st H) as [_ ->].
  destruct (decode_candidates self' outs st' H') as [_ ->].
  induction (concat outs) as [|row rows IH]; simpl; [reflexivity|].
  rewrite filter_app, IH.
  rewrite (row_candidates_raise_threshold self self' row Hres Hthr).
  reflexivity.
Qed.

(** [int] does not depend on how the fraction is written. *)
Lemma int_Qeq (x y : Q) : x == y -> int x = int y.
Proof.
  destruct x as [a b], y as [c d]. unfold Qeq, int. simpl. intros H.
  rewrite <- (Z.quot_mul_cancel_r a (Zpos b) (Zpos d)) by lia.
  rewrite <- (Z.quot_mul_cancel_r c (Zpos d) (Zpos b)) by lia.
  rewrite H. f_equal. lia.
Qed.

Lemma int_half (c w : Z) :
  int (inject_Z c - inject_Z w / 2) = Z.quot (2 * c - w) 2.
Proof.
  rewrite (int_Qeq _ ((2 * c - w) # 2)); [reflexivity|].
  unfold Qeq, Qminus, Qplus, Qopp, Qdiv, Qmult, Qinv, inject_Z.
  cbn [Qnum Qden Pos.mul]. ring.
Qed.

Lemma half_centred (c w : Z) :
  let l := int (inject_Z c - inject_Z w / 2) in
  (Z.abs (2 * l + w - 2 * c) <= 1)%Z /\
  (Z.even w = true -> (2 * l + w = 2 * c)%Z).
Proof.
  intros l. unfold l. rewrite int_half.
  pose proof (Z.quot_rem' (2 * c - w) 2) as Hq.
  pose proof (Z.rem_bound_abs (2 * c - w) 2 ltac:(lia)) as Hr.
  split; [lia|].
  intros Hev. apply Z.even_spec in Hev. destruct Hev as [k ->].
  replace (2 * c - 2 * k)%Z with ((c - k) * 2)%Z by lia.
  rewrite Z.quot_mul by lia. lia.
Qed.

Lemma box_of_row_centred (res : Z * Z) (row : list Q) :
  centred res row (box_of_row res row).
Proof.
  unfold centred, box_of_row. cbn [left top width height].
  destruct (half_centred (int (nth 0 row 0 * inject_Z (fst res)))
                         (int (nth 2 row 0 * inject_Z (fst res))))
    as [X1 X2].
  destruct (half_centred (int (nth 1 row 0 * inject_Z (snd res)))
                         (int (nth 3 row 0 * inject_Z (snd res))))
    as [Y1 Y2].
  repeat split; assumption.
Qed.

Lemma row_candidates_box (self : ObjectDetection) (row : list Q)
    (c : Candidate) :
  In c (row_candidates self row) -> box c = box_of_row (model_res self) row.
Proof.
  unfold row_candidates. destruct (skipn 5 row); [intros []|].
  destruct (gt _ _); [|intros []]. intros [<-|[]]. reflexivity.
Qed.

(** X5: the box of every candidate is centred on the pixel centre of its
    row up to the half pixel that [int] drops: twice [left] plus [width]
    differs from twice [center_x] by at most 1, and by nothing when [width]
    is even; likewise for [top], [height] and [center_y]. *)
Theorem decoded_boxes_centred :
  forall (self : ObjectDetection) (outs : list (list (list Q))) (st : Lists),
    decode self outs = Ok st ->
    Forall2 (fun c row => centred (model_res self) row (box c))
            (candidates st) (contributing self outs).
Proof.
  intros self outs st H.
  destruct (decode_candidates self outs st H) as [_ ->].
  apply candidates_by_row. intros row c _ Hc.
  rewrite (row_candidates_box self row c Hc). apply box_of_row_centred.
Qed.

Lemma int_floor (x : Q) : 0 <= x -> int x = Qfloor x.
Proof.
  destruct x as [a b]. unfold Qle, int, Qfloor. simpl. intros H.
  apply Z.quot_div_nonneg; lia.
Qed.

Lemma int_scaled_range (q : Q) (r : Z) :
  (0 < r)%Z -> 0 <= q -> q <= 1 -> (0 <= int (q * inject_Z r) <= r)%Z.
Proof.
  intros Hr H0 H1.
  assert (Hr' : 0 <= inject_Z r)
    by (change 0 with (inject_Z 0); rewrite <- Zle_Qle; lia).
  assert (Hx : 0 <= q * inject_Z r) by (apply Qmult_le_0_compat; assumption).
  split; [apply int_nonneg; exact Hx|].
  rewrite int_floor by exact Hx.
  apply Z.le_trans with (Qfloor (inject_Z r));
    [apply Qfloor_resp_le | rewrite Qfloor_Z; lia].
  apply Qle_trans with (1 * inject_Z r);
    [apply Qmult_le_compat_r; assumption | rewrite Qmult_1_l; apply Qle_refl].
Qed.

Lemma box_of_row_near_image (res : Z * Z) (row : list Q) :
  (0 < fst res)%Z -> (0 < snd res)%Z -> unit_row row ->
  near_image res (box_of_row res row).
Proof.
  intros Hx Hy [Hf Hl].
  destruct row as [|d0 [|d1 [|d2 [|d3 rest]]]]; simpl in Hl; try lia.
  simpl in Hf.
  inversion Hf as [|? ? [A0 A1] Hf1]; subst.
  inversion Hf1 as [|? ? [B0 B1] Hf2]; subst.
  inversion Hf2 as [|? ? [C0 C1] Hf3]; subst.
  inversion Hf3 as [|? ? [D0 D1] _]; subst.
  unfold near_image, box_of_row. cbn [left top width height nth].
  rewrite !int_half.
  pose proof (int_scaled_range d0 (fst res) Hx A0 A1).
  pose proof (int_scaled_range d1 (snd res) Hy B0 B1).
  pose proof (int_scaled_range d2 (fst res) Hx C0 C1).
  pose proof (int_scaled_range d3 (snd res) Hy D0 D1).
  set (cx := int (d0 * inject_Z (fst res))) in *.
  set (cy := int (d1 * inject_Z (snd res))) in *.
  set (w := int (d2 * inject_Z (fst res))) in *.
  set (h := int (d3 * inject_Z (snd res))) in *.
  pose proof (Z.quot_rem' (2 * cx - w) 2).
  pose proof (Z.quot_rem' (2 * cy - h) 2).
  assert (forall a, (0 <= a -> 0 <= Z.rem a 2 < 2)
                    /\ (a <= 0 -> -2 < Z.rem a 2 <= 0))%Z as Hrem.
  { intros a. split; intros Ha.
    - apply Z.rem_bound_pos; lia.
    - replace a with (- - a)%Z by lia. rewrite Z.rem_opp_l by lia.
      pose proof (Z.rem_bound_pos (- a) 2). lia. }
  pose proof (Hrem (2 * cx - w)%Z) as [? ?].
  pose proof (Hrem (2 * cy - h)%Z) as [? ?].
  repeat split; lia.
Qed.

(** X6: for a positive [model_res] and rows whose four geometry fractions
    lie in [0,1], every decoded box has a width between 0 and the
    horizontal resolution, a height between 0 and the vertical one, and a
    left and top edge no more than half a resolution before the origin and
    not beyond the resolution. *)
Theorem decoded_boxes_near_image :
  forall (self : ObjectDetection) (outs : list (list (list Q))) (st : Lists),
    (0 < fst (model_res self))%Z -> (0 < snd (model_res self))%Z ->
    Forall unit_row (concat outs) ->
    decode self outs = Ok st ->
    Forall (near_image (model_res self)) (boxes st).
Proof.
  intros self outs st Hx Hy Hrows H.
  destruct (decode_candidates self outs st H) as [Hal Hc].
  destruct (aligned_projections st Hal) as [_ [_ ->]]. rewrite Hc.
  apply Forall_forall. intros b Hb. apply in_map_iff in Hb.
  destruct Hb as [c [<- Hin]]. apply in_flat_map in Hin.
  destruct Hin as [row [Hrow Hin]].
  rewrite (row_candidates_box self row c Hin).
  apply box_of_row_near_image; try assumption.
  rewrite Forall_forall in Hrows. apply Hrows. exact Hrow.
Qed.

Section AssembleShape.

Variable self : ObjectDetection.
Variable st : Lists.

Lemma assemble_index_inv (i : nat) (lbl lbl' : option string) (d : Det.t) :
  assemble_index self st i lbl = Ok (lbl', d) ->
  exists name q,
    lbl' = Some name /\ name_for self st i lbl name /\
    record_for self st i name q d.
Proof.
  unfold assemble_index, index, name_for, record_for. intros H.
  destruct (nth_error (boxes st) i) as [b|] eqn:Eb; [|discriminate].
  cbn [bind] in H.
  destruct (truthy (classes self)) eqn:Et.
  - destruct (nth_error (classIds st) i) as [cid|] eqn:Ec; [|discriminate].
    cbn [bind] in H.
    destruct (classes self) as [names|] eqn:En; [|discriminate].
    destruct (nth_error names cid) as [name|] eqn:Ename; [|discriminate].
    cbn [bind] in H.
    destruct (calculate_relative_coords _ _) as [[[r0 r1] r2] r3] eqn:Er.
    cbn [bind] in H.
    destruct (nth_error (confidences st) i) as [q|] eqn:Eq; [|discriminate].
    cbn [bind] in H. injection H as <- <-.
    exists name, q. split; [reflexivity|]. split.
    + exists names, cid. repeat split; assumption.
    + exists b. rewrite Er. repeat split.
  - cbn [bind] in H.
    destruct (calculate_relative_coords _ _) as [[[r0 r1] r2] r3] eqn:Er.
    destruct lbl as [name|]; [|discriminate]. cbn [bind] in H.
    destruct (nth_error (confidences st) i) as [q|] eqn:Eq; [|discriminate].
    cbn [bind] in H. injection H as <- <-.
    exists name, q. split; [reflexivity|]. split; [reflexivity|].
    exists b. rewrite Er. repeat split.
Qed.

(** The detections of the loop stand one for one, in order, for the kept
    positions. *)
Lemma assemble_shape (indices : list nat) :
  forall lbl dets0 dets,
    assemble self st indices lbl dets0 = Ok dets ->
    exists news,
      dets = dets0 ++ news /\
      Forall2 (fun d i => exists lbl name q,
                   name_for self st i lbl name /\
                   record_for self st i name q d)
              news indices.
Proof.
  induction indices as [|i rest IH]; intros lbl dets0 dets H; simpl in H.
  - injection H as <-. exists []. rewrite app_nil_r. split; constructor.
  - destruct (assemble_index self st i lbl) as [[lbl' d]|e] eqn:E;
      [|discriminate].
    cbn [bind fst snd] in H.
    destruct (IH _ _ _ H) as [news [-> HF]].
    exists (d :: news). rewrite <- app_assoc. split; [reflexivity|].
    constructor; [|exact HF].
    destruct (assemble_index_inv i lbl lbl' d E) as [name [q [_ [Hn Hr]]]].
    exists lbl, name, q. split; assumption.
Qed.

End AssembleShape.

Lemma postprocess_with_shape
    (nms : list Box -> list Q -> Q -> Q -> list nat)
    (self : ObjectDetection) (outs : list (list (list Q)))
    (dets : list Det.t) :
  postprocess_with nms self outs = Ok dets ->
  exists st,
    decode self outs = Ok st /\
    Forall2 (fun d i => exists lbl name q,
                 name_for self st i lbl name /\
                 record_for self st i name q d)
            dets
            (nms (boxes st) (confidences st) (confThreshold self)
                 (nmsThreshold self)).
Proof.
  unfold postprocess_with. intros H.
  destruct (decode self outs) as [st|e] eqn:Ed; [|discriminate].
  cbn [bind] in H. exists st. split; [reflexivity|].
  destruct (assemble_shape self st _ _ _ _ H) as [news [-> HF]]. exact HF.
Qed.

Lemma record_for_confidence (self : ObjectDetection) (st : Lists) (i : nat)
    (name : string) (q : Q) (d : Det.t) :
  record_for self st i name q d ->
  nth_error (confidences st) i = Some q /\ Det.confidence d = round3 q /\
  Det.label d = (if nonempty name then name else "Unknown"%string).
Proof.
  intros [b [_ [Hq Hd]]].
  destruct (calculate_relative_coords _ _) as [[[r0 r1] r2] r3].
  subst d. repeat split. exact Hq.
Qed.

(** X7: when [postprocess] returns, it returns one record per position
    kept by the suppressor, in the suppressor's order, and the confidence of
    each record is the confidence of the candidate at that position rounded
    to three decimals. *)
Theorem one_detection_per_kept_candidate :
  forall (nms : list Box -> list Q -> Q -> Q -> list nat)
         (self : ObjectDetection) (outs : list (list (list Q)))
         (dets : list Det.t),
    postprocess_with nms self outs = Ok dets ->
    exists st,
      decode self outs = Ok st /\
      Forall2 (fun d i => exists c,
                   nth_error (candidates st) i = Some c /\
                   Det.confidence d = round3 (confidence c))
              dets
              (nms (boxes st) (confidences st) (confThreshold self)
                   (nmsThreshold self)).
Proof.
  intros nms self outs dets H.
  destruct (postprocess_with_shape nms self outs dets H) as [st [Hd HF]].
  exists st. split; [exact Hd|].
  destruct (decode_candidates self outs st Hd) as [Hal _].
  destruct (aligned_projections st Hal) as [_ [Hconf _]].
  eapply Forall2_impl; [|exact HF]. cbn beta.
  intros d i [lbl [name [q [_ Hr]]]].
  destruct (record_for_confidence self st i name q d Hr) as [Hq [Hc _]].
  rewrite Hconf in Hq. rewrite nth_error_map in Hq.
  destruct (nth_error (candidates st) i) as [c|]; [|discriminate].
  injection Hq as <-. exists c. split; [reflexivity | exact Hc].
Qed.

Lemma candidates_above_threshold (self : ObjectDetection)
    (outs : list (list (list Q))) (st : Lists) (i : nat) (q : Q) :
  decode self outs = Ok st ->
  nth_error (confidences st) i = Some q -> confThreshold self < q.
Proof.
  intros Hd Hq.
  destruct (decode_outs_adds self outs no_lists st) as [Hal [new [E [F _]]]];
    [split; reflexivity | exact Hd |].
  change (candidates no_lists) with (@nil Candidate) in E. simpl in E.
  destruct (aligned_projections st Hal) as [_ [Hconf _]].
  rewrite Hconf, nth_error_map in Hq.
  destruct (nth_error (candidates st) i) as [c|] eqn:Ec; [|discriminate].
  injection Hq as <-. rewrite E in Ec.
  rewrite Forall_forall in F. apply F. eapply nth_error_In. exact Ec.
Qed.

(** X8: the confidence of every record that [postprocess] returns is at
    least the confidence threshold rounded to three decimals (not strictly
    above it: rounding can bring a confidence down to the threshold). *)
Theorem detections_reach_rounded_threshold :
  forall (nms : list Box -> list Q -> Q -> Q -> list nat)
         (self : ObjectDetection) (outs : list (list (list Q)))
         (dets : list Det.t),
    postprocess_with nms self outs = Ok dets ->
    Forall (fun d => round3 (confThreshold self) <= Det.confidence d) dets.
Proof.
  intros nms self outs dets H.
  destruct (postprocess_with_shape nms self outs dets H) as [st [Hd HF]].
  clear H.
  induction HF as [|d i ds idxs Hdi _ IH]; [constructor|].
  destruct Hdi as [lbl [name [q [_ Hr]]]]. constructor; [|exact IH].
  destruct (record_for_confidence self st i name q d Hr) as [Hq [-> _]].
  apply round3_mono. apply Qlt_le_weak.
  exact (candidates_above_threshold self outs st i q Hd Hq).
Qed.

Section AssembleOutcome.

Variable self : ObjectDetection.
Variable st : Lists.

(** Without a class table no turn of the loop can succeed while [label] is
    unassigned. *)
Lemma assemble_index_none (i : nat) :
  truthy (classes self) = false ->
  forall r, assemble_index self st i None <> Ok r.
Proof.
  intros Hc r H. unfold assemble_index, index in H.
  destruct (nth_error (boxes st) i); [|discriminate].
  cbn [bind] in H. rewrite Hc in H. cbn [bind] in H.
  destruct (calculate_relative_coords _ _) as [[[r0 r1] r2] r3].
  discriminate.
Qed.

Lemma assemble_none (indices : list nat) (dets0 dets : list Det.t) :
  truthy (classes self) = false ->
  assemble self st indices None dets0 = Ok dets ->
  indices = [] /\ dets = dets0.
Proof.
  intros Hc H. destruct indices as [|i rest]; simpl in H.
  - injection H as <-. split; reflexivity.
  - destruct (assemble_index self st i None) as [r|e] eqn:E; [|discriminate].
    exfalso. exact (assemble_index_none i Hc r E).
Qed.

(** When every kept position has a box, a confidence and a class id inside
    the class table, the loop ends with one record per position. *)
Lemma assemble_total (names : list string) (indices : list nat) :
  classes self = Some names ->
  (forall i, In i indices ->
             exists b q classId name,
               nth_error (boxes st) i = Some b /\
               nth_error (confidences st) i = Some q /\
               nth_error (classIds st) i = Some classId /\
               nth_error names classId = Some name) ->
  forall lbl dets0,
    exists dets,
      assemble self st indices lbl dets0 = Ok dets /\
      length dets = (length dets0 + length indices)%nat.
Proof.
  intros Hc. induction indices as [|i rest IH]; intros Hall lbl dets0.
  - exists dets0. split; [reflexivity | simpl; lia].
  - destruct (Hall i (or_introl eq_refl))
      as [b [q [cid [name [Hb [Hq [Hi Hn]]]]]]].
    destruct (assemble_index_labelled self st i cid names name b q lbl
                Hc Hb Hi Hn Hq) as [d [Hd _]].
    simpl. rewrite Hd. cbn [bind fst snd].
    destruct (IH (fun j Hj => Hall j (or_intror Hj)) (Some name)
                 (dets0 ++ [d])) as [dets [Hok Hlen]].
    exists dets. split; [exact Hok|].
    rewrite Hlen, length_app. simpl. lia.
Qed.

End AssembleOutcome.

(** X9: the label of every record that [postprocess] returns is not
    empty, and it is a name of the class table, or "Unknown" standing for an
    empty name of the class table. *)
Theorem labels_come_from_class_table :
  forall (nms : list Box -> list Q -> Q -> Q -> list nat)
         (self : ObjectDetection) (outs : list (list (list Q)))
         (dets : list Det.t),
    postprocess_with nms self outs = Ok dets ->
    Forall (fun d =>
              Det.label d <> EmptyString /\
              exists names,
                classes self = Some names /\
                (In (Det.label d) names \/
                 (Det.label d = "Unknown"%string /\ In EmptyString names)))
           dets.
Proof.
  intros nms self outs dets H.
  destruct (truthy (classes self)) eqn:Et.
  - destruct (postprocess_with_shape nms self outs dets H) as [st [_ HF]].
    clear H.
    induction HF as [|d i ds idxs Hdi _ IH]; [constructor|].
    constructor; [|exact IH].
    destruct Hdi as [lbl [name [q [Hn Hr]]]].
    unfold name_for in Hn. rewrite Et in Hn.
    destruct Hn as [names [cid [Hc [_ Hname]]]].
    destruct (record_for_confidence self st i name q d Hr) as [_ [_ ->]].
    apply nth_error_In in Hname.
    destruct name as [|c name']; simpl.
    + split; [discriminate|]. exists names. split; [exact Hc|].
      right. split; [reflexivity | exact Hname].
    + split; [discriminate|]. exists names. split; [exact Hc|].
      left. exact Hname.
  - unfold postprocess_with in H.
    destruct (decode self outs) as [st|e]; [|discriminate].
    cbn [bind] in H.
    destruct (assemble_none self st _ _ _ Et H) as [_ ->]. constructor.
Qed.

(** X10: without a class table [postprocess] returns only when the
    suppressor keeps nothing, and what it returns is then the empty list. *)
Theorem no_class_table_no_detections :
  forall (nms : list Box -> list Q -> Q -> Q -> list nat)
         (self : ObjectDetection) (outs : list (list (list Q)))
         (dets : list Det.t),
    truthy (classes self) = false ->
    postprocess_with nms self outs = Ok dets ->
    dets = [] /\
    exists st,
      decode self outs = Ok st /\
      nms (boxes st) (confidences st) (confThreshold self)
          (nmsThreshold self) = [].
Proof.
  intros nms self outs dets Et H. unfold postprocess_with in H.
  destruct (decode self outs) as [st|e]; [|discriminate].
  cbn [bind] in H.
  destruct (assemble_none self st _ _ _ Et H) as [Hi ->].
  split; [reflexivity|]. exists st. split; [reflexivity | exact Hi].
Qed.

Lemma row_candidates_below (self : ObjectDetection) (row : list Q) :
  (forall s, In s (skipn 5 row) -> s <= confThreshold self) ->
  row_candidates self row = [].
Proof.
  intros H. unfold row_candidates.
  destruct (skipn 5 row) as [|x l]; [reflexivity|].
  destruct (gt (max_from x l) (confThreshold self)) eqn:E; [|reflexivity].
  apply gt_true in E. exfalso. apply (Qlt_not_le _ _ E).
  apply H. apply max_from_In.
Qed.

(** X11: when every row has at least six fields and no class score above
    the confidence threshold, [postprocess] returns the empty list, with or
    without a class table, for a suppressor that keeps nothing of no
    candidates; the empty output is a case of it. *)
Theorem nothing_above_threshold_gives_empty_result :
  forall (nms : list Box -> list Q -> Q -> Q -> list nat)
         (self : ObjectDetection) (outs : list (list (list Q))),
    Forall (fun row => (6 <= length row)%nat /\
                       forall s, In s (skipn 5 row) ->
                                 s <= confThreshold self)
           (concat outs) ->
    nms [] [] (confThreshold self) (nmsThreshold self) = [] ->
    postprocess_with nms self outs = Ok [].
Proof.
  intros nms self outs Hrows Hnms.
  destruct (decode_outs_outcome self outs no_lists) as [Hok _].
  destruct Hok as [st Hd].
  { eapply Forall_impl; [|exact Hrows]. intros row [Hl _]. exact Hl. }
  change (decode self outs = Ok st) in Hd.
  destruct (decode_candidates self outs st Hd) as [Hal Hc].
  assert (Hnil : candidates st = []).
  { rewrite Hc. clear Hc Hd. induction (concat outs) as [|row rows IH];
      [reflexivity|].
    inversion Hrows as [|? ? [_ Hrow] Hrest]; subst. simpl.
    rewrite (row_candidates_below self row Hrow). apply IH. exact Hrest. }
  destruct (aligned_projections st Hal) as [_ [Hconf Hbox]].
  rewrite Hnil in Hconf, Hbox. simpl in Hconf, Hbox.
  unfold postprocess_with. rewrite Hd. cbn [bind].
  rewrite Hconf, Hbox, Hnms. reflexivity.
Qed.

(** ** Rounding of the record fields *)






(** ** The class file *)

Lemma rstrip_newlines (k : nat) : rstrip_newline (newlines k) = EmptyString.
Proof.
  induction k as [|k IH]; simpl; [reflexivity|]. rewrite IH. reflexivity.
Qed.

Lemma rstrip_app_newlines (s : string) (k : nat) :
  rstrip_newline (s ++ newlines k) = rstrip_newline s.
Proof.
  induction s as [|c s IH]; simpl; [apply rstrip_newlines|].
  rewrite IH. reflexivity.
Qed.

Lemma rstrip_clean (s : string) :
  ends_with_newline s = false -> rstrip_newline s = s.
Proof.
  induction s as [|c s IH]; simpl; [reflexivity|]. intros H.
  destruct s as [|c' s'].
  - simpl. rewrite H. reflexivity.
  - rewrite IH by exact H. reflexivity.
Qed.

Lemma ends_with_newline_app (s t : string) :
  t <> EmptyString ->
  ends_with_newline (s ++ t) = ends_with_newline t.
Proof.
  intros Ht. induction s as [|c s IH]; simpl; [reflexivity|].
  destruct (s ++ t)%string as [|c' r] eqn:E.
  - destruct s; simpl in E; [contradiction | discriminate].
  - exact IH.
Qed.

Lemma no_newline_clean_end (s : string) :
  has_newline s = false -> ends_with_newline s = false.
Proof.
  induction s as [|c s IH]; simpl; [reflexivity|]. intros H.
  apply orb_false_iff in H. destruct H as [Hc Hs].
  destruct s; [exact Hc | apply IH; exact Hs].
Qed.

Lemma split_newline_single (s : string) :
  has_newline s = false -> split_newline s = [s].
Proof.
  induction s as [|c s IH]; simpl; [reflexivity|]. intros H.
  apply orb_false_iff in H. destruct H as [Hc Hs].
  rewrite Hc, IH by exact Hs. reflexivity.
Qed.

Lemma split_newline_line (s rest : string) :
  has_newline s = false ->
  split_newline (s ++ String newline rest) = s :: split_newline rest.
Proof.
  induction s as [|c s IH]; simpl; intros H.
  - reflexivity.
  - apply orb_false_iff in H. destruct H as [Hc Hs].
    rewrite Hc, IH by exact Hs. reflexivity.
Qed.

Lemma join_cons (n n' : string) (names : list string) :
  String.concat (String newline EmptyString) (n :: n' :: names)
  = (n ++ String newline
            (String.concat (String newline EmptyString) (n' :: names)))%string.
Proof. reflexivity. Qed.

Lemma split_newline_join (names : list string) :
  names <> [] -> Forall (fun n => has_newline n = false) names ->
  split_newline (String.concat (String newline EmptyString) names) = names.
Proof.
  induction names as [|n names IH]; intros Hne Hall; [contradiction|].
  inversion Hall as [|? ? Hn Hrest]; subst.
  destruct names as [|n' names'].
  - simpl. apply split_newline_single. exact Hn.
  - rewrite join_cons. rewrite split_newline_line by exact Hn.
    rewrite IH; [reflexivity | discriminate | exact Hrest].
Qed.

Lemma join_clean_end (names : list string) :
  Forall (fun n => has_newline n = false) names ->
  last names EmptyString <> EmptyString ->
  ends_with_newline (String.concat (String newline EmptyString) names) = false.
Proof.
  induction names as [|n names IH]; intros Hall Hlast; [reflexivity|].
  inversion Hall as [|? ? Hn Hrest]; subst.
  destruct names as [|n' names'].
  - simpl. apply no_newline_clean_end. exact Hn.
  - rewrite join_cons. rewrite ends_with_newline_app by discriminate.
    specialize (IH Hrest Hlast).
    destruct (String.concat (String newline EmptyString) (n' :: names'))
      as [|c r] eqn:E.
    + exfalso. clear IH.
      assert (Hl : last (n' :: names') EmptyString = EmptyString);
        [|contradiction].
      clear Hlast Hall Hn Hrest. revert n' E.
      induction names' as [|m ms IHm]; intros n' E.
      * simpl in E. exact E.
      * rewrite join_cons in E. destruct n'; discriminate.
    + exact IH.
Qed.

Lemma split_newline_clean (s : string) :
  Forall (fun n => has_newline n = false) (split_newline s).
Proof.
  induction s as [|c s IH]; simpl; [repeat constructor|].
  destruct (Ascii.eqb c newline) eqn:Ec.
  - constructor; [reflexivity | exact IH].
  - destruct (split_newline s) as [|first others].
    + constructor; [simpl; rewrite Ec; reflexivity | constructor].
    + inversion IH; subst. constructor; [|assumption].
      simpl. rewrite Ec. assumption.
Qed.

(** X15: a class file that holds one name per line, with names free of
    newlines and a last name that is not empty, followed by any number of
    newlines, is loaded as exactly that list of names. *)
Theorem load_classes_reads_one_name_per_line :
  forall (read_text : string -> option string) (path : string)
         (names : list string) (k : nat),
    path <> EmptyString -> names <> [] ->
    Forall (fun n => has_newline n = false) names ->
    last names EmptyString <> EmptyString ->
    read_text path = Some (class_file names k) ->
    load_classes read_text (Some path) = Ok (Some names).
Proof.
  intros read_text path names k Hp Hne Hall Hlast Hread.
  unfold load_classes. destruct path as [|c p]; [contradiction|].
  rewrite Hread. unfold class_file.
  rewrite rstrip_app_newlines.
  rewrite rstrip_clean by (apply join_clean_end; assumption).
  rewrite split_newline_join by assumption. reflexivity.
Qed.

(** X16: [load_classes] gives no class table exactly when no path, or the
    empty path, is given; a class table read from a file is never empty, so
    it counts as true in [if self.classes], and none of its names holds a
    newline. *)
Theorem loaded_class_table_shape :
  forall (read_text : string -> option string) (classes : option string),
    (load_classes read_text classes = Ok None <->
     classes = None \/ classes = Some EmptyString) /\
    (forall names,
        load_classes read_text classes = Ok (Some names) ->
        truthy (Some names) = true /\
        Forall (fun n => has_newline n = false) names).
Proof.
  intros read_text classes. unfold load_classes. split; [split|].
  - destruct classes as [[|c p]|]; intros H; auto.
    destruct (read_text (String c p)); discriminate.
  - intros [->| ->]; reflexivity.
  - intros names H. destruct classes as [[|c p]|]; try discriminate.
    destruct (read_text (String c p)) as [text|]; [|discriminate].
    injection H as <-. split; [|apply split_newline_clean].
    pose proof (split_newline_nonempty (rstrip_newline text)) as Hne.
    destruct (split_newline (rstrip_newline text));
      [contradiction | reflexivity].
Qed.

Lemma loaded_class_table_shape_witness :
  truthy (Some sample_names) = true /\
  Forall (fun n => has_newline n = false) sample_names.
Proof.
  apply (proj2 (loaded_class_table_shape
                  (fun _ => Some (class_file sample_names 0))
                  (Some "coco.names"%string)) sample_names).
  reflexivity.
Defined.

(** ** Output layer names *)

Lemma getitem_cases {A : Type} (l : list A) (i : Z) :
  let n := Z.of_nat (length l) in
  match getitem l i with
  | Ok x => (- n <= i < n)%Z /\ nth_error l (Z.to_nat (i mod n)) = Some x
  | Raise e => e = IndexError /\ (i < - n \/ n <= i)%Z
  end.
Proof.
  intros n. unfold getitem, index. fold n.
  destruct (0 <=? i)%Z eqn:E0.
  - apply Z.leb_le in E0.
    destruct (nth_error l (Z.to_nat i)) as [x|] eqn:En.
    + assert (Hi : (Z.to_nat i < length l)%nat)
        by (apply nth_error_Some; congruence).
      assert (Hin : (i < n)%Z) by (unfold n; lia).
      split; [lia|]. rewrite Z.mod_small by lia. exact En.
    + apply nth_error_None in En. split; [reflexivity|]. unfold n. lia.
  - apply Z.leb_gt in E0. destruct (- n <=? i)%Z eqn:E1.
    + apply Z.leb_le in E1.
      destruct (nth_error l (Z.to_nat (n + i))) as [x|] eqn:En.
      * split; [lia|].
        replace (i mod n)%Z with (n + i)%Z; [exact En|].
        apply Z.mod_unique with (-1)%Z; lia.
      * apply nth_error_None in En. unfold n in *. lia.
    + apply Z.leb_gt in E1. split; [reflexivity|]. lia.
Qed.

(** X17: [getOutputsNames] returns, for each entry of the unconnected
    output layers, the name of the layer before position [id], where an id
    from 1 to the number of layers names the layer [id - 1] and an id from
    [1 - n] to 0 wraps around to the end of the list; it raises [IndexError]
    exactly when an entry is empty or its id is out of that range. *)
Theorem getOutputsNames_outcome :
  forall (layersNames : list string) (unconnectedOutLayers : list (list Z)),
    match getOutputsNames layersNames unconnectedOutLayers with
    | Ok names =>
        Forall2 (names_layer layersNames) unconnectedOutLayers names
    | Raise e =>
        e = IndexError /\
        Exists (names_no_layer layersNames) unconnectedOutLayers
    end.
Proof.
  intros layersNames outs. induction outs as [|i rest IH]; simpl.
  - constructor.
  - pose proof (getitem_cases i 0) as Hi.
    destruct (getitem i 0) as [id|e]; cbn [bind].
    + destruct Hi as [Hr Hn].
      destruct i as [|id' tl]; [simpl in Hr; lia|].
      assert (id' = id).
      { rewrite Z.mod_0_l in Hn by (simpl; lia). simpl in Hn. congruence. }
      subst id'.
      pose proof (getitem_cases layersNames (id - 1)) as Hl.
      destruct (getitem layersNames (id - 1)) as [name|e]; cbn [bind].
      * destruct Hl as [Hrange Hname].
        destruct (getOutputsNames layersNames rest) as [names|e]; cbn [bind].
        -- constructor; [|exact IH].
           exists id, tl. split; [reflexivity|]. split; [lia | exact Hname].
        -- destruct IH as [-> Hex]. split; [reflexivity|].
           apply Exists_cons_tl. exact Hex.
      * destruct Hl as [-> Hout]. split; [reflexivity|].
        apply Exists_cons_hd. simpl. lia.
    + destruct Hi as [-> Hout]. split; [reflexivity|].
      apply Exists_cons_hd. destruct i; [exact I|]. simpl in Hout. lia.
Qed.

(** ** The exceptions of [postprocess] *)

Lemma assemble_index_raises (self : ObjectDetection) (st : Lists) (i : nat)
    (lbl : option string) (e : exn) :
  assemble_index self st i lbl = Raise e ->
  e = IndexError \/
  (e = UnboundLocalError /\ truthy (classes self) = false).
Proof.
  unfold assemble_index, index. intros H.
  destruct (nth_error (boxes st) i); [|injection H as <-; left; reflexivity].
  cbn [bind] in H.
  destruct (truthy (classes self)) eqn:Et.
  - destruct (nth_error (classIds st) i);
      [|injection H as <-; left; reflexivity].
    cbn [bind] in H.
    destruct (nth_error _ n); [|injection H as <-; left; reflexivity].
    cbn [bind] in H.
    destruct (calculate_relative_coords _ _) as [[[r0 r1] r2] r3].
    cbn [bind] in H.
    destruct (nth_error (confidences st) i); [discriminate|].
    injection H as <-. left. reflexivity.
  - cbn [bind] in H.
    destruct (calculate_relative_coords _ _) as [[[r0 r1] r2] r3].
    destruct lbl; cbn [bind] in H.
    + destruct (nth_error (confidences st) i); [discriminate|].
      injection H as <-. left. reflexivity.
    + injection H as <-. right. split; reflexivity.
Qed.

Lemma assemble_raises (self : ObjectDetection) (st : Lists)
    (indices : list nat) :
  forall lbl dets0 e,
    assemble self st indices lbl dets0 = Raise e ->
    e = IndexError \/
    (e = UnboundLocalError /\ truthy (classes self) = false).
Proof.
  induction indices as [|i rest IH]; intros lbl dets0 e H; simpl in H;
    [discriminate|].
  destruct (assemble_index self st i lbl) as [r|e'] eqn:E; cbn [bind] in H.
  - eapply IH. exact H.
  - injection H as <-. eapply assemble_index_raises. exact E.
Qed.

(** X19: a class file that is empty or holds newlines only is loaded as
    the table of the one empty name, not as an absent table. *)
Theorem blank_class_file_gives_one_empty_name :
  forall (read_text : string -> option string) (path : string) (k : nat),
    path <> EmptyString ->
    read_text path = Some (newlines k) ->
    load_classes read_text (Some path) = Ok (Some [EmptyString]).
Proof.
  intros read_text path k Hp Hread. unfold load_classes.
  destruct path as [|c p]; [contradiction|].
  rewrite Hread, rstrip_newlines. reflexivity.
Qed.

(** ** The assembly loop over the entries of the index array *)

(** On an index array of one column the loop is [assemble] on its
    entries. *)
Lemma assemble_kept_rows (self : ObjectDetection) (st : Lists)
    (indices : list nat) :
  forall lbl dets0,
    assemble_kept self st (map (fun i => KeptRow [i]) indices) lbl dets0
    = assemble self st indices lbl dets0.
Proof.
  induction indices as [|i rest IH]; intros lbl dets0; simpl; [reflexivity|].
  destruct (assemble_index self st i lbl) as [r|e]; cbn [bind];
    [apply IH | reflexivity].
Qed.

Lemma postprocess_kept_rows
    (nms : list Box -> list Q -> Q -> Q -> list nat)
    (self : ObjectDetection) (outs : list (list (list Q))) :
  postprocess_kept
    (fun bs cs a b => map (fun i => KeptRow [i]) (nms bs cs a b)) self outs
  = postprocess_with nms self outs.
Proof.
  unfold postprocess_kept, postprocess_with.
  destruct (decode self outs); cbn [bind]; [|reflexivity].
  apply assemble_kept_rows.
Qed.

Lemma assemble_kept_total (self : ObjectDetection) (st : Lists)
    (names : list string) (kept : list Kept) :
  classes self = Some names ->
  (forall k, In k kept ->
             exists i rest b q classId name,
               k = KeptRow (i :: rest) /\
               nth_error (boxes st) i = Some b /\
               nth_error (confidences st) i = Some q /\
               nth_error (classIds st) i = Some classId /\
               nth_error names classId = Some name) ->
  forall lbl dets0,
    exists dets,
      assemble_kept self st kept lbl dets0 = Ok dets /\
      length dets = (length dets0 + length kept)%nat.
Proof.
  intros Hc. induction kept as [|k rest IH]; intros Hall lbl dets0.
  - exists dets0. split; [reflexivity | simpl; lia].
  - destruct (Hall k (or_introl eq_refl))
      as [i [tl [b [q [cid [name [-> [Hb [Hq [Hi Hn]]]]]]]]]].
    destruct (assemble_index_labelled self st i cid names name b q lbl
                Hc Hb Hi Hn Hq) as [d [Hd _]].
    simpl. rewrite Hd. cbn [bind fst snd].
    destruct (IH (fun j Hj => Hall j (or_intror Hj)) (Some name)
                 (dets0 ++ [d])) as [dets [Hok Hlen]].
    exists dets. split; [exact Hok|].
    rewrite Hlen, length_app. simpl. lia.
Qed.

Lemma first_of_raises (k : Kept) (e : exn) :
  first_of k = Raise e -> e = IndexError.
Proof.
  destruct k as [[|i row]|i]; simpl; intros H; try discriminate;
    injection H as <-; reflexivity.
Qed.

Lemma assemble_kept_raises (self : ObjectDetection) (st : Lists)
    (kept : list Kept) :
  forall lbl dets0 e,
    assemble_kept self st kept lbl dets0 = Raise e ->
    e = IndexError \/
    (e = UnboundLocalError /\ truthy (classes self) = false).
Proof.
  induction kept as [|k rest IH]; intros lbl dets0 e H; simpl in H;
    [discriminate|].
  destruct (first_of k) as [i|e'] eqn:Ek; cbn [bind] in H.
  - destruct (assemble_index self st i lbl) as [r|e'] eqn:E; cbn [bind] in H.
    + eapply IH. exact H.
    + injection H as <-. eapply assemble_index_raises. exact E.
  - injection H as <-. left. eapply first_of_raises. exact Ek.
Qed.

(** X12: with a class table, a non-zero [model_res], rows of at least six
    fields and at most five plus as many fields as the table has names, and
    a suppressor that returns an index array of one column (every entry an
    array whose first element is a position of its box list, as line 77
    expects), the statements of [postprocess] raise nothing and it returns
    one record per entry.  The suppressor and the normaliser are taken to
    return. *)
Theorem postprocess_succeeds_with_matching_class_table :
  forall (nms : list Box -> list Q -> Q -> Q -> list Kept)
         (self : ObjectDetection) (names : list string)
         (outs : list (list (list Q))),
    classes self = Some names ->
    fst (model_res self) <> 0%Z -> snd (model_res self) <> 0%Z ->
    Forall (fun row => (6 <= length row <= 5 + length names)%nat)
           (concat outs) ->
    (forall bs cs a b k,
        In k (nms bs cs a b) ->
        exists i rest, k = KeptRow (i :: rest) /\ (i < length bs)%nat) ->
    exists st dets,
      decode self outs = Ok st /\
      postprocess_kept nms self outs = Ok dets /\
      length dets
      = length (nms (boxes st) (confidences st) (confThreshold self)
                    (nmsThreshold self)).
Proof.
  intros nms self names outs Hc _ _ Hrows Hnms.
  destruct (decode_outs_outcome self outs no_lists) as [Hok _].
  destruct Hok as [st Hd].
  { eapply Forall_impl; [|exact Hrows]. cbv beta. intros row Hl. lia. }
  change (decode self outs = Ok st) in Hd.
  destruct (decode_candidates self outs st Hd) as [Hal Hcand].
  destruct (aligned_projections st Hal) as [Hids [Hconf Hbox]].
  set (kept := nms (boxes st) (confidences st) (confThreshold self)
                   (nmsThreshold self)).
  destruct (assemble_kept_total self st names kept Hc) with
    (lbl := @None string) (dets0 := @nil Det.t) as [dets [Hok Hlen]].
  { intros k Hk. apply Hnms in Hk. destruct Hk as [i [tl [-> Hi]]].
    rewrite Hbox, length_map in Hi.
    destruct (nth_error (candidates st) i) as [c|] eqn:Ec;
      [|apply nth_error_None in Ec; lia].
    assert (Hin : In c (candidates st)) by (eapply nth_error_In; exact Ec).
    rewrite Hcand in Hin. apply in_flat_map in Hin.
    destruct Hin as [row [Hrow Hin]].
    destruct (row_candidates_first_max self row c Hin) as [Hlt _].
    rewrite Forall_forall in Hrows. specialize (Hrows row Hrow).
    rewrite length_skipn in Hlt.
    destruct (nth_error names (class_id c)) as [name|] eqn:En;
      [|apply nth_error_None in En; lia].
    exists i, tl, (box c), (confidence c), (class_id c), name.
    rewrite Hbox, Hconf, Hids, !nth_error_map, Ec. repeat split. exact En. }
  exists st, dets. split; [exact Hd|]. split.
  - unfold postprocess_kept. rewrite Hd. cbn [bind]. exact Hok.
  - rewrite Hlen. reflexivity.
Qed.

Lemma postprocess_succeeds_with_matching_class_table_witness :
  exists st dets,
    decode sample_detector sample_outs = Ok st /\
    postprocess_kept keep_all_rows sample_detector sample_outs = Ok dets /\
    length dets
    = length (keep_all_rows (boxes st) (confidences st)
                            (confThreshold sample_detector)
                            (nmsThreshold sample_detector)).
Proof.
  apply (postprocess_succeeds_with_matching_class_table
           keep_all_rows sample_detector sample_names sample_outs).
  - reflexivity.
  - discriminate.
  - discriminate.
  - repeat constructor; simpl; lia.
  - intros bs cs a b k Hk. unfold keep_all_rows in Hk.
    apply in_map_iff in Hk. destruct Hk as [i [<- Hi]].
    apply in_seq in Hi. exists i, []. split; [reflexivity | lia].
Defined.

(** X18: at a non-zero [model_res] and when the suppressor and the
    normaliser return, the statements of [postprocess] itself, line 77
    included, raise nothing but [ValueError], [IndexError] and
    [UnboundLocalError]: [ValueError] when some row has fewer than six
    fields, the other two only when every row has at least six, and
    [UnboundLocalError] only without a class table. *)
Theorem postprocess_exceptions :
  forall (nms : list Box -> list Q -> Q -> Q -> list Kept)
         (self : ObjectDetection) (outs : list (list (list Q))) (e : exn),
    fst (model_res self) <> 0%Z -> snd (model_res self) <> 0%Z ->
    postprocess_kept nms self outs = Raise e ->
    (e = ValueError /\
     Exists (fun row => (length row < 6)%nat) (concat outs)) \/
    (e = IndexError /\
     Forall (fun row => (6 <= length row)%nat) (concat outs)) \/
    (e = UnboundLocalError /\ truthy (classes self) = false /\
     Forall (fun row => (6 <= length row)%nat) (concat outs)).
Proof.
  intros nms self outs e _ _ H. unfold postprocess_kept in H.
  destruct (Exists_dec (fun row => (length row < 6)%nat) (concat outs))
    as [Hx|Hn]; [intros r; apply lt_dec | |].
  - left. destruct (decode_outs_outcome self outs no_lists) as [_ Hbad].
    unfold decode in H. rewrite (Hbad Hx) in H. injection H as <-.
    split; [reflexivity | exact Hx].
  - assert (Hall : Forall (fun row => (6 <= length row)%nat) (concat outs)).
    { apply Forall_forall. intros r Hr.
      destruct (le_lt_dec 6 (length r)); [assumption|].
      exfalso. apply Hn. apply Exists_exists. exists r. auto. }
    right. destruct (decode_outs_outcome self outs no_lists) as [Hok _].
    destruct (Hok Hall) as [st Hd]. unfold decode in H. rewrite Hd in H.
    cbn [bind] in H.
    destruct (assemble_kept_raises self st _ _ _ _ H) as [->|[-> Ht]].
    + left. split; [reflexivity | exact Hall].
    + right. repeat split; assumption.
Qed.

Lemma postprocess_exceptions_witness :
  (IndexError = ValueError /\
   Exists (fun row => (length row < 6)%nat) (concat sample_outs)) \/
  (IndexError = IndexError /\
   Forall (fun row => (6 <= length row)%nat) (concat sample_outs)) \/
  (IndexError = UnboundLocalError /\
   truthy (classes sample_detector) = false /\
   Forall (fun row => (6 <= length row)%nat) (concat sample_outs)).
Proof.
  apply (postprocess_exceptions keep_all_flat sample_detector sample_outs
                                IndexError).
  - discriminate.
  - discriminate.
  - reflexivity.
Defined.

(** ** [return_objects] *)






(** ** Instances on the sample output *)

Lemma decode_lists_in_lockstep_witness :
  length (classIds sample_lists) = length (boxes sample_lists) /\
  length (confidences sample_lists) = length (boxes sample_lists) /\
  length (candidates sample_lists) = length (boxes sample_lists) /\
  (length (boxes sample_lists) <= length (concat sample_outs))%nat.
Proof.
  apply (decode_lists_in_lockstep sample_detector sample_outs sample_lists).
  reflexivity.
Defined.

Lemma decode_ties_go_to_lowest_class_witness :
  Forall2 first_max (candidates sample_lists)
          (contributing sample_detector sample_outs).
Proof.
  apply (decode_ties_go_to_lowest_class sample_detector sample_outs
                                        sample_lists).
  reflexivity.
Defined.

Lemma raising_threshold_filters_candidates_witness :
  exists st',
    decode (detector (85 # 100) (4 # 10) (416, 416)%Z (Some sample_names))
           sample_outs = Ok st' /\
    candidates st'
    = filter (fun c => gt (confidence c) (85 # 100))
             (candidates sample_lists).
Proof.
  apply (raising_threshold_filters_candidates
           sample_detector
           (detector (85 # 100) (4 # 10) (416, 416)%Z (Some sample_names))
           sample_outs sample_lists).
  - reflexivity.
  - unfold Qle. simpl. lia.
  - reflexivity.
Defined.

Lemma decoded_boxes_centred_witness :
  Forall2 (fun c row => centred (model_res sample_detector) row (box c))
          (candidates sample_lists)
          (contributing sample_detector sample_outs).
Proof.
  apply (decoded_boxes_centred sample_detector sample_outs sample_lists).
  reflexivity.
Defined.

Lemma decoded_boxes_near_image_witness :
  Forall (near_image (model_res sample_detector)) (boxes sample_lists).
Proof.
  apply (decoded_boxes_near_image sample_detector sample_outs sample_lists).
  - reflexivity.
  - reflexivity.
  - repeat constructor; unfold Qle; simpl; lia.
  - reflexivity.
Defined.

Lemma one_detection_per_kept_candidate_witness :
  exists st,
    decode sample_detector sample_outs = Ok st /\
    Forall2 (fun d i => exists c,
                 nth_error (candidates st) i = Some c /\
                 Det.confidence d = round3 (confidence c))
            sample_dets
            (keep_all (boxes st) (confidences st)
                      (confThreshold sample_detector)
                      (nmsThreshold sample_detector)).
Proof.
  apply (one_detection_per_kept_candidate keep_all sample_detector
                                          sample_outs sample_dets).
  reflexivity.
Defined.

Lemma detections_reach_rounded_threshold_witness :
  Forall (fun d => round3 (confThreshold sample_detector) <= Det.confidence d)
         sample_dets.
Proof.
  apply (detections_reach_rounded_threshold keep_all sample_detector
                                            sample_outs sample_dets).
  reflexivity.
Defined.

Lemma labels_come_from_class_table_witness :
  Forall (fun d =>
            Det.label d <> EmptyString /\
            exists names,
              classes sample_detector = Some names /\
              (In (Det.label d) names \/
               (Det.label d = "Unknown"%string /\ In EmptyString names)))
         sample_dets.
Proof.
  apply (labels_come_from_class_table keep_all sample_detector sample_outs
                                      sample_dets).
  reflexivity.
Defined.

Lemma no_class_table_no_detections_witness :
  @nil Det.t = [] /\
  exists st,
    decode (detector (1 # 2) (4 # 10) (416, 416)%Z None) quiet_outs = Ok st /\
    keep_all (boxes st) (confidences st) (1 # 2) (4 # 10) = [].
Proof.
  apply (no_class_table_no_detections
           keep_all (detector (1 # 2) (4 # 10) (416, 416)%Z None)
           quiet_outs []).
  - reflexivity.
  - reflexivity.
Defined.

Lemma nothing_above_threshold_gives_empty_result_witness :
  postprocess_with keep_all (detector (1 # 2) (4 # 10) (416, 416)%Z None)
                   quiet_outs = Ok [].
Proof.
  apply (nothing_above_threshold_gives_empty_result
           keep_all (detector (1 # 2) (4 # 10) (416, 416)%Z None) quiet_outs).
  - constructor; [|constructor]. split; [simpl; lia|].
    intros s [<-|[<-|[]]]; unfold Qle; simpl; lia.
  - reflexivity.
Defined.


Lemma load_classes_reads_one_name_per_line_witness :
  load_classes (fun _ => Some (class_file sample_names 2))
               (Some "coco.names"%string)
  = Ok (Some sample_names).
Proof.
  apply (load_classes_reads_one_name_per_line
           (fun _ => Some (class_file sample_names 2))
           "coco.names"%string sample_names 2).
  - discriminate.
  - discriminate.
  - repeat constructor.
  - discriminate.
  - reflexivity.
Defined.

Lemma blank_class_file_gives_one_empty_name_witness :
  load_classes (fun _ => Some (newlines 3)) (Some "coco.names"%string)
  = Ok (Some [EmptyString]).
Proof.
  apply (blank_class_file_gives_one_empty_name
           (fun _ => Some (newlines 3)) "coco.names"%string 3).
  - discriminate.
  - reflexivity.
Defined.
